(** * Application Gateway ingress controller: config builder and brownfield pruning

    A shallow embedding of
      - [pkg/brownfield/ingress.go] ([PruneIngressRules]), and
      - the config builder of [pkg/appgw] ([Build], [runValidationFunctions],
        [resolvePortName], [resolveIstioPortName], [generateListenerID], ...)
    together with the properties stated about them.

    Conventions.
      - A Go slice that the code tests against [nil] is an [option (list A)]:
        [None] is the nil slice, [Some l] a non-nil slice with elements [l].
        Slices that are only ranged over are plain lists.
      - A Go pointer that may be nil is an [option].
      - [int32] values are integers in [Z]; none of the functions below does
        arithmetic on them, so no wrap-around occurs.
      - [map[int32]interface{}] with values that are always [nil] is a
        [gset Z] (which stdpp implements as a [gmap Z unit]).
      - Calls to [glog] only write to the process log and are left out.
    The second half of the definitions models [PruneIngressRules] once more
    over an explicit heap, with slice headers, backing arrays and in-place
    [append], to state what the function does to the memory it is handed. *)

From stdpp Require Import gmap strings list fin_maps.
From Stdlib Require Import ZArith Lia.

Open Scope string_scope.
Open Scope list_scope.

(** [simpl] unfolds [omap] to the fixpoint behind it; this folds it back. *)
Ltac fold_omap :=
  repeat match goal with
         | |- context [list_omap ?A ?B ?f ?l] =>
             change (list_omap A B f l) with (omap f l)
         end.

(* ===================================================================== *)
(** * Part I: definitions                                                 *)
(* ===================================================================== *)

(** ** Go slices as values *)

Definition slice (A : Type) : Type := option (list A).

Definition elems {A} (s : slice A) : list A :=
  match s with
  | None => []
  | Some l => l
  end.

Definition len {A} (s : slice A) : nat := length (elems s).

Definition is_nil {A} (s : slice A) : bool :=
  match s with
  | None => true
  | Some _ => false
  end.

(** [append(s, x)]: the result is never nil. *)
Definition append {A} (s : slice A) (x : A) : slice A := Some (elems s ++ [x]).

(** ** k8s.io/api/extensions/v1beta1 *)

Module v1beta1.

Inductive IntOrString :=
| IntVal (i : Z)
| StrVal (s : string).

Record IngressBackend := {
  ServiceName : string;
  ServicePort : IntOrString
}.

Record HTTPIngressPath := {
  Path : string;
  Backend : IngressBackend
}.

Record HTTPIngressRuleValue := {
  Paths : slice HTTPIngressPath
}.

(** [IngressRule] embeds [IngressRuleValue], whose only field is the
    pointer [HTTP *HTTPIngressRuleValue]. *)
Record IngressRule := {
  Host : string;
  HTTP : option HTTPIngressRuleValue
}.

Record IngressSpec := {
  Rules : slice IngressRule
}.

Record Ingress := {
  Namespace : string;
  Name : string;
  Spec : IngressSpec
}.

End v1beta1.

(** ** pkg/apis/azureingressprohibitedtarget/v1 *)

Module ptv1.

Record AzureIngressProhibitedTargetSpec := {
  Hostname : string;
  Paths : list string
}.

Record AzureIngressProhibitedTarget := {
  Spec : AzureIngressProhibitedTargetSpec
}.

End ptv1.

(** ** pkg/brownfield *)

Module brownfield.

Record Target := {
  Hostname : string;
  Path : string
}.

(** [GetTargetBlacklist] hands back a pointer to a slice of targets; the
    code checks the pointer against nil and takes [len] of the pointee. *)
Definition TargetBlacklist : Type := option (list Target).

Definition blacklist_is_empty (blacklist : TargetBlacklist) : bool :=
  match blacklist with
  | None => true
  | Some l => Nat.eqb (length l) 0
  end.

Section Prune.

(** [GetTargetBlacklist] and [Target.IsBlacklisted] are declared elsewhere
    in the package; [PruneIngressRules] is modelled over any pair of them. *)
Variable GetTargetBlacklist :
  list ptv1.AzureIngressProhibitedTarget -> TargetBlacklist.
Variable IsBlacklisted : Target -> TargetBlacklist -> bool.

(** The inner loop, lines 52-58: [target.Path = path.Path], then the
    path is appended to [newRule.HTTP.Paths] unless blacklisted. *)
Definition prunePaths (host : string) (blacklist : TargetBlacklist)
    (newPaths : slice v1beta1.HTTPIngressPath)
    (paths : list v1beta1.HTTPIngressPath) : slice v1beta1.HTTPIngressPath :=
  foldl (fun acc path =>
           let target := {| Hostname := host; Path := v1beta1.Path path |} in
           if IsBlacklisted target blacklist then acc else append acc path)
        newPaths paths.

(** One iteration of the outer loop, lines 29-62. *)
Definition pruneRule (blacklist : TargetBlacklist)
    (rules : slice v1beta1.IngressRule) (rule : v1beta1.IngressRule)
    : slice v1beta1.IngressRule :=
  match v1beta1.HTTP rule with
  | None => rules
  | Some http =>
      let target := {| Hostname := v1beta1.Host rule; Path := "" |} in
      match v1beta1.Paths http with
      | None =>
          if IsBlacklisted target blacklist then rules
          else append rules rule
      | Some paths =>
          let newPaths :=
            prunePaths (v1beta1.Host rule) blacklist (Some []) paths in
          if Nat.ltb 0 (len newPaths) then
            append rules
              {| v1beta1.Host := v1beta1.Host rule;
                 v1beta1.HTTP := Some {| v1beta1.Paths := newPaths |} |}
          else rules
      end
  end.

Definition PruneIngressRules (ing : v1beta1.Ingress)
    (prohibitedTargets : list ptv1.AzureIngressProhibitedTarget)
    : slice v1beta1.IngressRule :=
  let input := v1beta1.Rules (v1beta1.Spec ing) in
  if is_nil input || Nat.eqb (len input) 0 then input
  else
    let blacklist := GetTargetBlacklist prohibitedTargets in
    if blacklist_is_empty blacklist then input
    else foldl (pruneRule blacklist) None (elems input).

(** *** What the specification says of one rule

    Written from the words of the specification, to be compared with
    the loop above: the targets a rule is tested against, the paths
    that survive, and the rule that is kept, if any. *)

Definition hostBlacklisted (blacklist : TargetBlacklist) (host : string) : bool :=
  IsBlacklisted {| Hostname := host; Path := "" |} blacklist.

Definition pathBlacklisted (blacklist : TargetBlacklist) (host : string)
    (path : v1beta1.HTTPIngressPath) : bool :=
  IsBlacklisted {| Hostname := host; Path := v1beta1.Path path |} blacklist.

Definition survivingPaths (blacklist : TargetBlacklist) (host : string)
    (paths : list v1beta1.HTTPIngressPath) : list v1beta1.HTTPIngressPath :=
  List.filter (fun p => negb (pathBlacklisted blacklist host p)) paths.

Definition keptRule (blacklist : TargetBlacklist) (rule : v1beta1.IngressRule)
    : option v1beta1.IngressRule :=
  match v1beta1.HTTP rule with
  | None => None
  | Some http =>
      match v1beta1.Paths http with
      | None =>
          if hostBlacklisted blacklist (v1beta1.Host rule) then None
          else Some rule
      | Some paths =>
          match survivingPaths blacklist (v1beta1.Host rule) paths with
          | [] => None
          | p :: ps =>
              Some {| v1beta1.Host := v1beta1.Host rule;
                      v1beta1.HTTP :=
                        Some {| v1beta1.Paths := Some (p :: ps) |} |}
          end
      end
  end.

(** A rule "has no paths" when there is no path to be found in it:
    no HTTP section, a nil path list, or an empty one. *)
Definition rulePaths (rule : v1beta1.IngressRule) : list v1beta1.HTTPIngressPath :=
  match v1beta1.HTTP rule with
  | None => []
  | Some http => elems (v1beta1.Paths http)
  end.

(** The rule for pathless rules exactly as the specification words it:
    such a rule of the input is among the result if and only if its host
    is not blacklisted. *)
Definition pathless_kept_iff_host_clear (ing : v1beta1.Ingress)
    (prohibitedTargets : list ptv1.AzureIngressProhibitedTarget) : Prop :=
  forall rule,
    rule ∈ elems (v1beta1.Rules (v1beta1.Spec ing)) ->
    rulePaths rule = [] ->
    (rule ∈ elems (PruneIngressRules ing prohibitedTargets) <->
     hostBlacklisted (GetTargetBlacklist prohibitedTargets)
                     (v1beta1.Host rule) = false).

End Prune.

(** *** The blacklist of targets *)

(** Modelled from the spec: [GetTargetBlacklist], declared elsewhere in the
    package.  A prohibited target without paths yields one entry with an
    empty path, one with paths an entry per path. *)
Definition GetTargetBlacklist
    (prohibitedTargets : list ptv1.AzureIngressProhibitedTarget)
    : TargetBlacklist :=
  Some (flat_map
          (fun pt =>
             let host := ptv1.Hostname (ptv1.Spec pt) in
             match ptv1.Paths (ptv1.Spec pt) with
             | [] => [ {| Hostname := host; Path := "" |} ]
             | paths => map (fun p => {| Hostname := host; Path := p |}) paths
             end)
          prohibitedTargets).

(** Modelled from the spec: the comparison inside [Target.IsBlacklisted],
    declared elsewhere in the package.  An entry with neither hostname nor
    path matches every target; an entry with an empty path matches every
    target of its host; any other entry matches the target with the same
    host and path. *)
Definition entryMatches (entry t : Target) : bool :=
  if String.eqb (Hostname entry) "" && String.eqb (Path entry) "" then true
  else if String.eqb (Path entry) "" then
    String.eqb (Hostname entry) (Hostname t)
  else
    String.eqb (Hostname entry) (Hostname t)
    && String.eqb (Path entry) (Path t).

(** Modelled from the spec: [Target.IsBlacklisted], declared elsewhere in
    the package: some entry of the blacklist matches the target. *)
Definition IsBlacklisted (t : Target) (blacklist : TargetBlacklist) : bool :=
  match blacklist with
  | None => false
  | Some entries => existsb (fun entry => entryMatches entry t) entries
  end.

(** *** Existing listeners *)

(** Modelled from the spec: the listeners of the gateway, declared in the
    network SDK.  A listener binds a frontend port and a hostname. *)
Record HTTPListener := {
  Name : string;
  FrontendPort : Z;
  HostName : string
}.

(** Modelled from the spec: [ExistingResources], declared elsewhere in the
    package: the existing listeners and the prohibited targets. *)
Record ExistingResources := {
  Listeners : list HTTPListener;
  ProhibitedTargets : list ptv1.AzureIngressProhibitedTarget
}.

Section Listeners.

(** The path set of a listener: the paths of the routing rules attached
    to it, which the specification leaves to the gateway snapshot. *)
Variable pathSet : ExistingResources -> HTTPListener -> list string.

(** Modelled from the spec: the matching rule of the membership test,
    declared elsewhere in the package.  A target with neither hostname nor
    paths matches every listener; a target with a hostname and no paths
    every listener of that host; a target with paths the listeners of its
    host whose path set meets its paths. *)
Definition targetMatchesListener (er : ExistingResources)
    (pt : ptv1.AzureIngressProhibitedTarget) (l : HTTPListener) : bool :=
  let host := ptv1.Hostname (ptv1.Spec pt) in
  match ptv1.Paths (ptv1.Spec pt) with
  | [] => if String.eqb host "" then true else String.eqb host (HostName l)
  | paths =>
      String.eqb host (HostName l)
      && existsb (fun p => bool_decide (p ∈ pathSet er l)) paths
  end.

(** Modelled from the spec: the membership test, a listener against every
    prohibited target. *)
Definition isBlacklistedListener (er : ExistingResources) (l : HTTPListener)
    : bool :=
  existsb (fun pt => targetMatchesListener er pt l) (ProhibitedTargets er).

(** Modelled from the spec: [GetBlacklistedListeners], declared elsewhere
    in the package: the existing listeners that pass the membership test,
    and those that do not. *)
Definition GetBlacklistedListeners (er : ExistingResources)
    : list HTTPListener * list HTTPListener :=
  (List.filter (isBlacklistedListener er) (Listeners er),
   List.filter (fun l => negb (isBlacklistedListener er l)) (Listeners er)).

End Listeners.

End brownfield.

(** ** k8s.io/api/core/v1 (the fields of Endpoints read by the port resolver) *)

Module v1.

Record EndpointPort := {
  Name : string;
  Port : Z
}.

Record EndpointSubset := {
  Ports : list EndpointPort
}.

Record Endpoints := {
  Subsets : list EndpointSubset
}.

End v1.

(** ** github.com/knative/pkg/apis/istio/v1alpha3 (the fields read below) *)

Module v1alpha3.

Record Destination := {
  Host : string
}.

Record VirtualService := {
  Namespace : string;
  Name : string
}.

End v1alpha3.

(** ** pkg/appgw *)

Module appgw.

(** [errors.New(msg)]: an error is the message it carries. *)
Definition error : Type := string.

(** [n.ApplicationGatewayProtocol] is a string type of the network SDK,
    with the two constants below. *)
Definition ApplicationGatewayProtocol : Type := string.
Definition HTTP : ApplicationGatewayProtocol := "Http".
Definition HTTPS : ApplicationGatewayProtocol := "Https".

Record serviceIdentifier := {
  Namespace : string;
  Name : string
}.

Record backendIdentifier := {
  backend_serviceIdentifier : serviceIdentifier;
  Ingress : v1beta1.Ingress;
  Rule : v1beta1.IngressRule;
  Path : v1beta1.HTTPIngressPath;
  Backend : v1beta1.IngressBackend
}.

Record istioDestinationIdentifier := {
  destination_serviceIdentifier : serviceIdentifier;
  VirtualService : v1alpha3.VirtualService;
  Destination : v1alpha3.Destination
}.

Record listenerIdentifier := {
  FrontendPort : Z;
  HostName : string
}.

Definition generateBackendID (ingress : v1beta1.Ingress)
    (rule : v1beta1.IngressRule) (path : v1beta1.HTTPIngressPath)
    (backend : v1beta1.IngressBackend) : backendIdentifier :=
  {| backend_serviceIdentifier :=
       {| Namespace := v1beta1.Namespace ingress;
          Name := v1beta1.ServiceName backend |};
     Ingress := ingress;
     Rule := rule;
     Path := path;
     Backend := backend |}.

Definition generateIstioDestinationID (virtualService : v1alpha3.VirtualService)
    (destination : v1alpha3.Destination) : istioDestinationIdentifier :=
  {| destination_serviceIdentifier :=
       {| Namespace := v1alpha3.Namespace virtualService;
          Name := v1alpha3.Host destination |};
     VirtualService := virtualService;
     Destination := destination |}.

(** Lines 207-221.  [overridePort] is a pointer: [None] when nil. *)
Definition generateListenerID (rule : v1beta1.IngressRule)
    (protocol : ApplicationGatewayProtocol) (overridePort : option Z)
    : listenerIdentifier :=
  let frontendPort := 80%Z in
  let frontendPort :=
    if String.eqb protocol HTTPS then 443%Z else frontendPort in
  let frontendPort :=
    match overridePort with
    | Some port => port
    | None => frontendPort
    end in
  {| FrontendPort := frontendPort; HostName := v1beta1.Host rule |}.

(** [k8scontext.Context], as far as the builder consults it: the cache
    lookup hands back an Endpoints pointer and an error. *)
Record Context := {
  GetEndpointsByService : string -> option v1.Endpoints * option error
}.

(** The numbers a port name stands for in an Endpoints object, in the
    words of the specification: those of the ports, over all subsets and
    all their ports, whose name is the requested one. *)
Definition namedPort (endpoints : v1.Endpoints) (portName : string)
    (port : Z) : Prop :=
  exists subset epPort,
    subset ∈ v1.Subsets endpoints /\ epPort ∈ v1.Ports subset
    /\ v1.Name epPort = portName /\ v1.Port epPort = port.

Section Builder.

(** Types of the network SDK, the environment package and the event
    recorder; the builder only passes their values along. *)
Context {ApplicationGatewayPropertiesFormat EnvVariables Service
         EventRecorder : Type}.

Record ApplicationGateway := {
  Properties : option ApplicationGatewayPropertiesFormat;
  Tags : option (gmap string (option string))
}.

Record appGwConfigBuilder := {
  k8sContext : Context;
  appGw : ApplicationGateway;
  recorder : EventRecorder
}.

Record ConfigBuilderContext := {
  IngressList : list v1beta1.Ingress;
  ServiceList : list Service;
  EnvVars : EnvVariables;
  ProhibitedTargets : list ptv1.AzureIngressProhibitedTarget
}.

Definition set_appGw (c : appGwConfigBuilder) (gw : ApplicationGateway)
    : appGwConfigBuilder :=
  {| k8sContext := k8sContext c; appGw := gw; recorder := recorder c |}.

Definition set_recorder (c : appGwConfigBuilder) (r : EventRecorder)
    : appGwConfigBuilder :=
  {| k8sContext := k8sContext c; appGw := appGw c; recorder := r |}.

(** *** Port resolution, lines 130-170 *)

(** [serviceIdentifier.serviceKey] is declared in another file. *)
Variable serviceKey : serviceIdentifier -> string.

Definition resolvePortName (c : appGwConfigBuilder) (portName : string)
    (backendID : backendIdentifier) : gset Z :=
  let resolvedPorts : gset Z := ∅ in
  match GetEndpointsByService (k8sContext c)
          (serviceKey (backend_serviceIdentifier backendID)) with
  | (_, Some err) => resolvedPorts
  | (None, None) => resolvedPorts
  | (Some endpoints, None) =>
      foldl (fun resolved subset =>
               foldl (fun resolved epPort =>
                        if String.eqb (v1.Name epPort) portName
                        then {[ v1.Port epPort ]} ∪ resolved
                        else resolved)
                     resolved (v1.Ports subset))
            resolvedPorts (v1.Subsets endpoints)
  end.

Definition resolveIstioPortName (c : appGwConfigBuilder) (portName : string)
    (destinationID : istioDestinationIdentifier) : gset Z :=
  let resolvedPorts : gset Z := ∅ in
  match GetEndpointsByService (k8sContext c)
          (serviceKey (destination_serviceIdentifier destinationID)) with
  | (_, Some err) => resolvedPorts
  | (None, None) => resolvedPorts
  | (Some endpoints, None) =>
      foldl (fun resolved subset =>
               foldl (fun resolved epPort =>
                        if String.eqb (v1.Name epPort) portName
                        then {[ v1.Port epPort ]} ∪ resolved
                        else resolved)
                     resolved (v1.Ports subset))
            resolvedPorts (v1.Subsets endpoints)
  end.

(** *** Validation, lines 97-126

    A validator may record events; the recorder it leaves behind is
    handed to the next one. *)
Definition valFunc : Type :=
  EventRecorder -> option ApplicationGatewayPropertiesFormat ->
  EnvVariables -> list v1beta1.Ingress -> list Service ->
  EventRecorder * option error.

Definition callValidator (c : appGwConfigBuilder)
    (cbCtx : ConfigBuilderContext) (fn : valFunc)
    : appGwConfigBuilder * option error :=
  let '(r, err) :=
    fn (recorder c) (Properties (appGw c)) (EnvVars cbCtx)
       (IngressList cbCtx) (ServiceList cbCtx) in
  (set_recorder c r, err).

Fixpoint runValidationFunctions (c : appGwConfigBuilder)
    (cbCtx : ConfigBuilderContext) (validationFunctions : list valFunc)
    : appGwConfigBuilder * option error :=
  match validationFunctions with
  | [] => (c, None)
  | fn :: rest =>
      match callValidator c cbCtx fn with
      | (c', Some err) => (c', Some err)
      | (c', None) => runValidationFunctions c' cbCtx rest
      end
  end.

Variable validateServiceDefinition : valFunc.
Variable validateURLPathMaps : valFunc.

Definition PreBuildValidate (c : appGwConfigBuilder)
    (cbCtx : ConfigBuilderContext) : appGwConfigBuilder * option error :=
  let validationFunctions := [validateServiceDefinition] in
  runValidationFunctions c cbCtx validationFunctions.

Definition PostBuildValidate (c : appGwConfigBuilder)
    (cbCtx : ConfigBuilderContext) : appGwConfigBuilder * option error :=
  let validationFunctions := [validateURLPathMaps] in
  runValidationFunctions c cbCtx validationFunctions.

(** The harness in the words of the specification: [passes c cbCtx fns c']
    when the validators of [fns], called in list order from [c], each on
    the builder its predecessor left, all succeed and leave [c']. *)
Inductive passes (cbCtx : ConfigBuilderContext)
    : appGwConfigBuilder -> list valFunc -> appGwConfigBuilder -> Prop :=
| passes_nil c : passes cbCtx c [] c
| passes_cons c c' c'' fn fns :
    callValidator c cbCtx fn = (c', None) ->
    passes cbCtx c' fns c'' ->
    passes cbCtx c (fn :: fns) c''.

(** *** Build, lines 50-95 and 224-230 *)

(** A build stage is a method of the builder declared in another file:
    it updates the builder and may fail. *)
Definition stage : Type :=
  ConfigBuilderContext -> appGwConfigBuilder ->
  appGwConfigBuilder * option error.

Variable HealthProbesCollection : stage.
Variable BackendHTTPSettingsCollection : stage.
Variable BackendAddressPools : stage.
Variable Listeners : stage.
Variable RequestRoutingRules : stage.

(** The tag key and the three strings of the version package. *)
Variable managedByK8sIngress : string.
Variable Version GitCommit BuildDate : string.

Definition addTags (c : appGwConfigBuilder) : appGwConfigBuilder :=
  let tags :=
    match Tags (appGw c) with
    | None => ∅
    | Some tags => tags
    end in
  let value :=
    String.append Version
      (String.append "/" (String.append GitCommit
         (String.append "/" BuildDate))) in
  set_appGw c
    {| Properties := Properties (appGw c);
       Tags := Some (<[managedByK8sIngress := Some value]> tags) |}.

(** [Build] hands back the builder as the stages left it, and the pair
    the Go function returns: a pointer to the gateway ([None] for nil)
    and an error ([None] for nil). *)
Definition Build (c : appGwConfigBuilder) (cbCtx : ConfigBuilderContext)
    : appGwConfigBuilder * (option ApplicationGateway * option error) :=
  match HealthProbesCollection cbCtx c with
  | (c, Some err) =>
      (c, (None, Some "unable to generate health probes"))
  | (c, None) =>
  match BackendHTTPSettingsCollection cbCtx c with
  | (c, Some err) =>
      (c, (None, Some "unable to generate backend http settings"))
  | (c, None) =>
  match BackendAddressPools cbCtx c with
  | (c, Some err) =>
      (c, (None, Some "unable to generate backend address pools"))
  | (c, None) =>
  match Listeners cbCtx c with
  | (c, Some err) =>
      (c, (None, Some "unable to generate frontend listeners"))
  | (c, None) =>
  match RequestRoutingRules cbCtx c with
  | (c, Some err) =>
      (c, (None, Some "unable to generate request routing rules"))
  | (c, None) =>
      let c := addTags c in
      (c, (Some (appGw c), None))
  end end end end end.

End Builder.

End appgw.

(** ** pkg/brownfield over an explicit heap

    The same [PruneIngressRules], with the memory it works on spelled out.
    A slice is a header (data pointer, length, capacity) over a backing
    array in the heap; an ingress rule holds a pointer to its HTTP section;
    [append] writes into the backing array when there is room and copies to
    a new array when there is none.  A heap cell for a backing array holds
    the elements written so far; the capacity is in the headers. *)

Module mem.

Definition loc : Type := positive.

(** The data pointer of a slice header: nil, the address all zero-sized
    allocations share (what [[]T{}] points to), or a backing array. *)
Inductive dataptr :=
| NilPtr
| ZeroBase
| ArrayAt (l : loc).

Record sliceHdr := {
  data : dataptr;
  slen : nat;
  scap : nat
}.

Definition nilSlice : sliceHdr := {| data := NilPtr; slen := 0; scap := 0 |}.
Definition emptySlice : sliceHdr := {| data := ZeroBase; slen := 0; scap := 0 |}.

Definition isNil (s : sliceHdr) : bool :=
  match data s with
  | NilPtr => true
  | _ => false
  end.

Record IngressRule := {
  Host : string;
  HTTP : option loc
}.

Record HTTPIngressRuleValue := {
  Paths : sliceHdr
}.

Record Ingress := {
  Namespace : string;
  Name : string;
  Rules : sliceHdr
}.

Inductive cell :=
| RuleArray (rules : list IngressRule)
| PathArray (paths : list v1beta1.HTTPIngressPath)
| HTTPValue (v : HTTPIngressRuleValue)
| IngressObject (ing : Ingress).

Abbreviation heap := (gmap loc cell).

(** *** Computations on the heap; [None] is a run-time panic *)

Definition M (A : Type) : Type := heap -> option (A * heap).

Definition ret {A} (a : A) : M A := fun h => Some (a, h).

Definition bind {A B} (m : M A) (k : A -> M B) : M B :=
  fun h =>
    match m h with
    | Some (a, h') => k a h'
    | None => None
    end.

Notation "x <- m ;; k" := (bind m (fun x => k))
  (at level 100, m at next level, right associativity).

Fixpoint foldM {A B} (f : B -> A -> M B) (l : list A) (acc : B) : M B :=
  match l with
  | [] => ret acc
  | x :: l => acc' <- f acc x ;; foldM f l acc'
  end.

Definition alloc (c : cell) : M loc :=
  fun h => let l := fresh (dom h) in Some (l, <[l := c]> h).

Definition store (l : loc) (c : cell) : M unit :=
  fun h =>
    match h !! l with
    | Some _ => Some (tt, <[l := c]> h)
    | None => None
    end.

Definition loadIngress (p : loc) : M Ingress :=
  fun h =>
    match h !! p with
    | Some (IngressObject ing) => Some (ing, h)
    | _ => None
    end.

Definition loadHTTP (p : loc) : M HTTPIngressRuleValue :=
  fun h =>
    match h !! p with
    | Some (HTTPValue v) => Some (v, h)
    | _ => None
    end.

(** The two kinds of backing array. *)
Record arrayKind (A : Type) := {
  toCell : list A -> cell;
  ofCell : cell -> option (list A)
}.
Arguments toCell {A}.
Arguments ofCell {A}.

Definition ruleArrays : arrayKind IngressRule :=
  {| toCell := RuleArray;
     ofCell := fun c => match c with RuleArray l => Some l | _ => None end |}.

Definition pathArrays : arrayKind v1beta1.HTTPIngressPath :=
  {| toCell := PathArray;
     ofCell := fun c => match c with PathArray l => Some l | _ => None end |}.

(** A kind tells its arrays from all other cells. *)
Definition lawful {A} (k : arrayKind A) : Prop :=
  (forall xs, ofCell k (toCell k xs) = Some xs)
  /\ (forall c xs, ofCell k c = Some xs -> c = toCell k xs).

Definition loadArray {A} (k : arrayKind A) (l : loc) : M (list A) :=
  fun h =>
    match h !! l with
    | Some c =>
        match ofCell k c with
        | Some xs => Some (xs, h)
        | None => None
        end
    | None => None
    end.

(** [s[i]] *)
Definition index {A} (k : arrayKind A) (s : sliceHdr) (i : nat) : M A :=
  fun h =>
    if Nat.ltb i (slen s) then
      match data s with
      | ArrayAt l =>
          match loadArray k l h with
          | Some (xs, _) =>
              match xs !! i with
              | Some x => Some (x, h)
              | None => None
              end
          | None => None
          end
      | _ => None
      end
    else None.

(** [for _, x := range s { acc = body(acc, x) }]: the header is read once,
    the elements one by one as the loop goes. *)
Definition forRange {A B} (k : arrayKind A) (s : sliceHdr)
    (body : B -> A -> M B) (acc : B) : M B :=
  foldM (fun acc i => x <- index k s i ;; body acc x) (seq 0 (slen s)) acc.

Section Append.

(** How the runtime picks the capacity of a grown slice. *)
Variable growcap : nat -> nat.

(** [append(s, x)] *)
Definition append {A} (k : arrayKind A) (s : sliceHdr) (x : A) : M sliceHdr :=
  if Nat.ltb (slen s) (scap s) then
    match data s with
    | ArrayAt l =>
        xs <- loadArray k l ;;
        if Nat.leb (slen s) (length xs) then
          _ <- store l (toCell k (take (slen s) xs ++ x :: drop (S (slen s)) xs)) ;;
          ret {| data := ArrayAt l; slen := S (slen s); scap := scap s |}
        else fun _ => None
    | _ => fun _ => None
    end
  else
    old <- match data s with
           | ArrayAt l =>
               xs <- loadArray k l ;;
               if Nat.leb (slen s) (length xs) then ret (take (slen s) xs)
               else fun _ => None
           | _ => if Nat.eqb (slen s) 0 then ret [] else fun _ => None
           end ;;
    l' <- alloc (toCell k (old ++ [x])) ;;
    ret {| data := ArrayAt l'; slen := S (slen s);
           scap := Nat.max (growcap (scap s)) (S (slen s)) |}.

Variable GetTargetBlacklist :
  list ptv1.AzureIngressProhibitedTarget -> brownfield.TargetBlacklist.
Variable IsBlacklisted :
  brownfield.Target -> brownfield.TargetBlacklist -> bool.

(** Lines 52-58, for the rule under construction at [newRule.HTTP]. *)
Definition prunePath (host : string) (blacklist : brownfield.TargetBlacklist)
    (newHTTP : loc) (_ : unit) (path : v1beta1.HTTPIngressPath) : M unit :=
  let target :=
    {| brownfield.Hostname := host; brownfield.Path := v1beta1.Path path |} in
  if IsBlacklisted target blacklist then ret tt
  else
    cur <- loadHTTP newHTTP ;;
    paths <- append pathArrays (Paths cur) path ;;
    store newHTTP (HTTPValue {| Paths := paths |}).

(** Lines 29-62. *)
Definition pruneRule (blacklist : brownfield.TargetBlacklist)
    (rules : sliceHdr) (rule : IngressRule) : M sliceHdr :=
  match HTTP rule with
  | None => ret rules
  | Some http =>
      let target :=
        {| brownfield.Hostname := Host rule; brownfield.Path := "" |} in
      v <- loadHTTP http ;;
      if isNil (Paths v) then
        if IsBlacklisted target blacklist then ret rules
        else append ruleArrays rules rule
      else
        newHTTP <- alloc (HTTPValue {| Paths := emptySlice |}) ;;
        let newRule := {| Host := Host rule; HTTP := Some newHTTP |} in
        v <- loadHTTP http ;;
        _ <- forRange pathArrays (Paths v)
               (prunePath (Host rule) blacklist newHTTP) tt ;;
        new <- loadHTTP newHTTP ;;
        if Nat.ltb 0 (slen (Paths new)) then append ruleArrays rules newRule
        else ret rules
  end.

Definition PruneIngressRules (ing : loc)
    (prohibitedTargets : list ptv1.AzureIngressProhibitedTarget) : M sliceHdr :=
  i <- loadIngress ing ;;
  if isNil (Rules i) || Nat.eqb (slen (Rules i)) 0 then ret (Rules i)
  else
    let blacklist := GetTargetBlacklist prohibitedTargets in
    if brownfield.blacklist_is_empty blacklist then ret (Rules i)
    else
      i <- loadIngress ing ;;
      forRange ruleArrays (Rules i) (pruneRule blacklist) nilSlice.

End Append.

(** *** Reading values back from the heap

    The ingress a pointer stands for, in the value model of the first
    part; [None] when the heap does not hold a well-formed ingress there. *)

Definition readSlice {A} (k : arrayKind A) (h : heap) (s : sliceHdr)
    : option (list A) :=
  match data s with
  | ArrayAt l =>
      match h !! l with
      | Some c =>
          match ofCell k c with
          | Some xs =>
              if Nat.leb (slen s) (length xs) then Some (take (slen s) xs)
              else None
          | None => None
          end
      | None => None
      end
  | _ => if Nat.eqb (slen s) 0 && Nat.eqb (scap s) 0 then Some [] else None
  end.

Definition readPaths (h : heap) (s : sliceHdr)
    : option (slice v1beta1.HTTPIngressPath) :=
  match readSlice pathArrays h s with
  | Some ps => Some (if isNil s then None else Some ps)
  | None => None
  end.

Definition readRule (h : heap) (rule : IngressRule)
    : option v1beta1.IngressRule :=
  match HTTP rule with
  | None => Some {| v1beta1.Host := Host rule; v1beta1.HTTP := None |}
  | Some p =>
      match h !! p with
      | Some (HTTPValue v) =>
          match readPaths h (Paths v) with
          | Some ps =>
              Some {| v1beta1.Host := Host rule;
                      v1beta1.HTTP := Some {| v1beta1.Paths := ps |} |}
          | None => None
          end
      | _ => None
      end
  end.

Fixpoint readAll (h : heap) (rules : list IngressRule)
    : option (list v1beta1.IngressRule) :=
  match rules with
  | [] => Some []
  | rule :: rules =>
      match readRule h rule, readAll h rules with
      | Some r, Some rs => Some (r :: rs)
      | _, _ => None
      end
  end.

Definition readRules (h : heap) (s : sliceHdr)
    : option (slice v1beta1.IngressRule) :=
  match readSlice ruleArrays h s with
  | Some raw =>
      match readAll h raw with
      | Some rs => Some (if isNil s then None else Some rs)
      | None => None
      end
  | None => None
  end.

Definition readIngress (h : heap) (p : loc) : option v1beta1.Ingress :=
  match h !! p with
  | Some (IngressObject i) =>
      match readRules h (Rules i) with
      | Some rs =>
          Some {| v1beta1.Namespace := Namespace i;
                  v1beta1.Name := Name i;
                  v1beta1.Spec := {| v1beta1.Rules := rs |} |}
      | None => None
      end
  | _ => None
  end.

(** A slice is fresh for a heap when its backing array, if it has one, is
    not a cell of that heap. *)
Definition freshSlice (h : heap) (s : sliceHdr) : Prop :=
  match data s with
  | ArrayAt l => h !! l = None
  | _ => True
  end.

(** Where a rule of the returned slice comes from, given the heap [h0] the
    function was started in and the heap [h'] it left: either its HTTP
    section is a cell of [h0] with a nil path list (a pathless rule of the
    input, copied with its pointer), or its HTTP section is no cell of [h0]
    and holds a non-nil path list that is fresh for [h0] (a rule rebuilt
    from the surviving paths). *)
Definition copiedOrRebuilt (h0 h' : heap) (rule : IngressRule) : Prop :=
  match HTTP rule with
  | None => False
  | Some p =>
      match h0 !! p with
      | Some c => exists v, c = HTTPValue v /\ isNil (Paths v) = true
      | None =>
          exists sl,
            h' !! p = Some (HTTPValue {| Paths := sl |})
            /\ isNil sl = false /\ freshSlice h0 sl
      end
  end.

(** HTTP sections stay as they are from [h] to [h']. *)
Definition keepsHTTP (h h' : heap) : Prop :=
  forall p v, h !! p = Some (HTTPValue v) -> h' !! p = Some (HTTPValue v).

End mem.

(** ** The builder and the tag map it shares

    [n.ApplicationGateway] holds its tags in a Go map, and a map is a
    reference: copying the gateway struct, as [NewConfigBuilder] does with
    [*original], copies the pointer to the map, not the map.  Here the tag
    maps live in a heap and the gateway holds a pointer to one ([None] for
    a nil map), to see what [addTags] does to the gateway the builder was
    made from. *)

Module appgwmem.

Definition loc : Type := positive.

Abbreviation heap := (gmap loc (gmap string (option string))).

Section Builder.

Context {ApplicationGatewayPropertiesFormat Identifier EventRecorder : Type}.

Record ApplicationGateway := {
  Properties : option ApplicationGatewayPropertiesFormat;
  Tags : option loc
}.

Record appGwConfigBuilder := {
  k8sContext : appgw.Context;
  appGwIdentifier : Identifier;
  appGw : ApplicationGateway;
  recorder : EventRecorder
}.

(** Lines 40-47: the identifier and the gateway are copied out of the
    pointers handed in. *)
Definition NewConfigBuilder (context : appgw.Context)
    (appGwIdentifier : Identifier) (original : ApplicationGateway)
    (recorder : EventRecorder) : appGwConfigBuilder :=
  {| k8sContext := context;
     appGwIdentifier := appGwIdentifier;
     appGw := original;
     recorder := recorder |}.

Variable managedByK8sIngress : string.
Variable Version GitCommit BuildDate : string.

Definition tagValue : string :=
  String.append Version
    (String.append "/" (String.append GitCommit (String.append "/" BuildDate))).

(** Lines 224-230: a nil map is replaced by a new one in the builder's
    gateway; then the entry is written into the map the gateway points
    to.  [None] is the panic of a write through a dangling pointer. *)
Definition addTags (c : appGwConfigBuilder) (h : heap)
    : option (appGwConfigBuilder * heap) :=
  let '(c, h) :=
    match Tags (appGw c) with
    | None =>
        let l := fresh (dom h) in
        ({| k8sContext := k8sContext c;
            appGwIdentifier := appGwIdentifier c;
            appGw := {| Properties := Properties (appGw c); Tags := Some l |};
            recorder := recorder c |},
         <[l := ∅]> h)
    | Some _ => (c, h)
    end in
  match Tags (appGw c) with
  | Some l =>
      match h !! l with
      | Some tags =>
          Some (c, <[l := <[managedByK8sIngress := Some tagValue]> tags]> h)
      | None => None
      end
  | None => None
  end.

(** The gateway and the builder as values, the tag map read from the
    heap. *)
Definition readGateway (h : heap) (gw : ApplicationGateway)
    : option (@appgw.ApplicationGateway ApplicationGatewayPropertiesFormat) :=
  match Tags gw with
  | None => Some {| appgw.Properties := Properties gw; appgw.Tags := None |}
  | Some l =>
      match h !! l with
      | Some tags =>
          Some {| appgw.Properties := Properties gw; appgw.Tags := Some tags |}
      | None => None
      end
  end.

Definition readBuilder (h : heap) (c : appGwConfigBuilder)
    : option (@appgw.appGwConfigBuilder ApplicationGatewayPropertiesFormat
                EventRecorder) :=
  match readGateway h (appGw c) with
  | Some gw =>
      Some {| appgw.k8sContext := k8sContext c;
              appgw.appGw := gw;
              appgw.recorder := recorder c |}
  | None => None
  end.

End Builder.

End appgwmem.

(** ** Sample inputs *)

Module fixtures.

Definition backend (service : string) : v1beta1.IngressBackend :=
  {| v1beta1.ServiceName := service; v1beta1.ServicePort := v1beta1.IntVal 80 |}.

Definition path (p : string) : v1beta1.HTTPIngressPath :=
  {| v1beta1.Path := p; v1beta1.Backend := backend "web" |}.

(** A rule without HTTP section, one with a nil path list, one with two
    paths. *)
Definition ruleNoHTTP : v1beta1.IngressRule :=
  {| v1beta1.Host := "foo.com"; v1beta1.HTTP := None |}.

Definition ruleNilPaths : v1beta1.IngressRule :=
  {| v1beta1.Host := "bar.com";
     v1beta1.HTTP := Some {| v1beta1.Paths := None |} |}.

Definition ruleTwoPaths : v1beta1.IngressRule :=
  {| v1beta1.Host := "baz.com";
     v1beta1.HTTP := Some {| v1beta1.Paths := Some [path "/a"; path "/b"] |} |}.

Definition ingress : v1beta1.Ingress :=
  {| v1beta1.Namespace := "default";
     v1beta1.Name := "web";
     v1beta1.Spec :=
       {| v1beta1.Rules := Some [ruleNoHTTP; ruleNilPaths; ruleTwoPaths] |} |}.

(** An ingress whose one rule has a path list that is empty, not nil. *)
Definition ingressEmptyPaths : v1beta1.Ingress :=
  {| v1beta1.Namespace := "default";
     v1beta1.Name := "web";
     v1beta1.Spec :=
       {| v1beta1.Rules :=
            Some [ {| v1beta1.Host := "qux.com";
                      v1beta1.HTTP := Some {| v1beta1.Paths := Some [] |} |} ] |} |}.

Definition ingressNoRules : v1beta1.Ingress :=
  {| v1beta1.Namespace := "default";
     v1beta1.Name := "web";
     v1beta1.Spec := {| v1beta1.Rules := None |} |}.

(** Host "baz.com", path "/a". *)
Definition prohibitedTargets : list ptv1.AzureIngressProhibitedTarget :=
  [ {| ptv1.Spec := {| ptv1.Hostname := "baz.com"; ptv1.Paths := ["/a"] |} |} ].

(** Two rules of one host that differ in everything else. *)
Definition ruleBarNoHTTP : v1beta1.IngressRule :=
  {| v1beta1.Host := "bar.com"; v1beta1.HTTP := None |}.

(** An Endpoints object with one subset and one port, "http" at 8080. *)
Definition endpoints : v1.Endpoints :=
  {| v1.Subsets :=
       [ {| v1.Ports := [ {| v1.Name := "http"; v1.Port := 8080 |} ] |} ] |}.

Definition serviceKey (s : appgw.serviceIdentifier) : string :=
  String.append (appgw.Namespace s) (String.append "/" (appgw.Name s)).

(** A cache that holds [endpoints] under "default/web", nothing under
    "default/gone", and fails on every other key. *)
Definition k8sContext : appgw.Context :=
  {| appgw.GetEndpointsByService := fun key =>
       if String.eqb key "default/web" then (Some endpoints, None)
       else if String.eqb key "default/gone" then (None, None)
       else (None, Some "cache lookup failed") |}.

(** The sample builder records events as a list of strings. *)
Definition builder : @appgw.appGwConfigBuilder unit (list string) :=
  {| appgw.k8sContext := k8sContext;
     appgw.appGw := {| appgw.Properties := None; appgw.Tags := None |};
     appgw.recorder := [] |}.

Definition cbCtx : @appgw.ConfigBuilderContext unit unit :=
  {| appgw.IngressList := [ingress];
     appgw.ServiceList := [];
     appgw.EnvVars := tt;
     appgw.ProhibitedTargets := prohibitedTargets |}.

Definition backendID : appgw.backendIdentifier :=
  appgw.generateBackendID ingress ruleTwoPaths (path "/a") (backend "web").

Definition destinationID : appgw.istioDestinationIdentifier :=
  appgw.generateIstioDestinationID
    {| v1alpha3.Namespace := "default"; v1alpha3.Name := "vs" |}
    {| v1alpha3.Host := "web" |}.

(** A validator that records its name and passes, and one that records
    its name and fails with the given error. *)
Definition passing (name : string) : @appgw.valFunc unit unit unit (list string) :=
  fun r _ _ _ _ => (r ++ [name], None).

Definition failing (name : string) (err : appgw.error)
    : @appgw.valFunc unit unit unit (list string) :=
  fun r _ _ _ _ => (r ++ [name], Some err).

(** Build stages that record their name, and pass or fail. *)
Definition stageOk (name : string) : @appgw.stage unit unit unit (list string) :=
  fun _ c => (appgw.set_recorder c (appgw.recorder c ++ [name]), None).

Definition stageFails (name : string) (cause : appgw.error)
    : @appgw.stage unit unit unit (list string) :=
  fun _ c => (appgw.set_recorder c (appgw.recorder c ++ [name]), Some cause).

(** The sample ingress laid out in memory: the ingress object at 1, its
    rule array at 2, the two HTTP sections at 3 and 4, the path array of
    the third rule at 5. *)
Definition heap : mem.heap :=
  list_to_map
    [ (1%positive,
       mem.IngressObject
         {| mem.Namespace := "default"; mem.Name := "web";
            mem.Rules := {| mem.data := mem.ArrayAt 2%positive; mem.slen := 3;
                            mem.scap := 3 |} |});
      (2%positive,
       mem.RuleArray
         [ {| mem.Host := "foo.com"; mem.HTTP := None |};
           {| mem.Host := "bar.com"; mem.HTTP := Some 3%positive |};
           {| mem.Host := "baz.com"; mem.HTTP := Some 4%positive |} ]);
      (3%positive, mem.HTTPValue {| mem.Paths := mem.nilSlice |});
      (4%positive,
       mem.HTTPValue
         {| mem.Paths := {| mem.data := mem.ArrayAt 5%positive; mem.slen := 2;
                            mem.scap := 2 |} |});
      (5%positive, mem.PathArray [path "/a"; path "/b"]) ].

(** An ingress whose two rules the sample blacklist [otherTargets] does
    not meet. *)
Definition ingressWellFormed : v1beta1.Ingress :=
  {| v1beta1.Namespace := "default";
     v1beta1.Name := "web";
     v1beta1.Spec := {| v1beta1.Rules := Some [ruleNilPaths; ruleTwoPaths] |} |}.

(** Host "other.com", no paths. *)
Definition otherTargets : list ptv1.AzureIngressProhibitedTarget :=
  [ {| ptv1.Spec := {| ptv1.Hostname := "other.com"; ptv1.Paths := [] |} |} ].

(** A second cache: under "default/web" it holds the subset of [endpoints]
    twice, after a subset with another port. *)
Definition endpointsMore : v1.Endpoints :=
  {| v1.Subsets :=
       [ {| v1.Ports := [ {| v1.Name := "https"; v1.Port := 8443 |} ] |};
         {| v1.Ports := [ {| v1.Name := "http"; v1.Port := 8080 |} ] |};
         {| v1.Ports := [ {| v1.Name := "http"; v1.Port := 8080 |} ] |} ] |}.

Definition builderMore : @appgw.appGwConfigBuilder unit (list string) :=
  {| appgw.k8sContext :=
       {| appgw.GetEndpointsByService := fun _ => (Some endpointsMore, None) |};
     appgw.appGw := {| appgw.Properties := None; appgw.Tags := None |};
     appgw.recorder := [] |}.

(** A gateway whose tag map, at 1, holds one tag of its owner. *)
Definition tagHeap : appgwmem.heap :=
  {[ 1%positive := {[ "owner" := Some "ops" ]} ]}.

Definition original : @appgwmem.ApplicationGateway unit :=
  {| appgwmem.Properties := None; appgwmem.Tags := Some 1%positive |}.

Definition untagged : @appgwmem.ApplicationGateway unit :=
  {| appgwmem.Properties := None; appgwmem.Tags := None |}.

(** Capacities double as slices grow. *)
Definition growcap (n : nat) : nat := 2 * n.

End fixtures.

(* ===================================================================== *)
(** * Part II: properties                                                 *)
(* ===================================================================== *)

(** ** Pruning of ingress rules *)

Section PruneFacts.

Variable GetTargetBlacklist :
  list ptv1.AzureIngressProhibitedTarget -> brownfield.TargetBlacklist.
Variable IsBlacklisted :
  brownfield.Target -> brownfield.TargetBlacklist -> bool.

Local Abbreviation prunePaths := (brownfield.prunePaths IsBlacklisted).
Local Abbreviation pruneRule := (brownfield.pruneRule IsBlacklisted).
Local Abbreviation survivingPaths := (brownfield.survivingPaths IsBlacklisted).
Local Abbreviation keptRule := (brownfield.keptRule IsBlacklisted).
Local Abbreviation PruneIngressRules :=
  (brownfield.PruneIngressRules GetTargetBlacklist IsBlacklisted).

(** The inner loop appends the surviving paths, in order. *)
Lemma prunePaths_surviving host blacklist paths : forall acc,
  prunePaths host blacklist (Some acc) paths
  = Some (acc ++ survivingPaths blacklist host paths).
Proof.
  induction paths as [|p paths IH]; intros acc; simpl.
  - by rewrite app_nil_r.
  - unfold brownfield.pathBlacklisted.
    destruct (IsBlacklisted _ blacklist); simpl.
    + apply IH.
    + unfold append; simpl. rewrite IH. by rewrite <- app_assoc.
Qed.

(** One turn of the outer loop appends the kept rule, if there is one. *)
Lemma pruneRule_kept blacklist rules rule :
  elems (pruneRule blacklist rules rule)
  = elems rules ++ option_list (keptRule blacklist rule).
Proof.
  unfold brownfield.pruneRule, brownfield.keptRule, brownfield.hostBlacklisted.
  destruct (v1beta1.HTTP rule) as [http|]; simpl; [|by rewrite app_nil_r].
  destruct (v1beta1.Paths http) as [paths|]; simpl.
  - rewrite prunePaths_surviving; simpl.
    destruct (survivingPaths blacklist (v1beta1.Host rule) paths); simpl.
    + by rewrite app_nil_r.
    + done.
  - destruct (IsBlacklisted _ blacklist); simpl; [by rewrite app_nil_r | done].
Qed.

Lemma pruneLoop_kept blacklist input : forall rules,
  elems (foldl (pruneRule blacklist) rules input)
  = elems rules ++ omap (keptRule blacklist) input.
Proof.
  induction input as [|rule input IH]; intros rules; simpl.
  - by rewrite app_nil_r.
  - rewrite IH, pruneRule_kept.
    destruct (keptRule blacklist rule); simpl; by rewrite <- app_assoc.
Qed.

(** No rule that comes out of the loop lacks its HTTP section. *)
Lemma keptRule_has_HTTP blacklist rule kept :
  keptRule blacklist rule = Some kept -> v1beta1.HTTP kept <> None.
Proof.
  unfold brownfield.keptRule.
  destruct (v1beta1.HTTP rule) as [http|] eqn:Hh; [|done].
  destruct (v1beta1.Paths http) as [paths|].
  - destruct (survivingPaths _ _ _); [done|]. intros [= <-]. done.
  - destruct (brownfield.hostBlacklisted _ _ _); [done|].
    intros [= <-]. by rewrite Hh.
Qed.

Lemma pruned_rules_have_HTTP blacklist (input : list v1beta1.IngressRule) kept :
  kept ∈ omap (keptRule blacklist) input -> v1beta1.HTTP kept <> None.
Proof.
  intros Hin. apply list_elem_of_omap in Hin as (rule & _ & Hk).
  by eapply keptRule_has_HTTP.
Qed.

(** C1 (as amended).  When the blacklist derived from the prohibited
    targets is not empty, the rules [PruneIngressRules] hands back are, in
    the order of the input, what [keptRule] keeps of each input rule:
    nothing of a rule without HTTP section; a rule with a nil path list
    unchanged, provided its host is not blacklisted; and of a rule with a
    non-nil path list a rule of the same host with exactly the paths whose
    (host, path) target is not blacklisted, provided at least one such
    path is left. *)
Theorem PruneIngressRules_keeps ing prohibitedTargets :
  brownfield.blacklist_is_empty (GetTargetBlacklist prohibitedTargets) = false ->
  elems (PruneIngressRules ing prohibitedTargets)
  = omap (keptRule (GetTargetBlacklist prohibitedTargets))
         (elems (v1beta1.Rules (v1beta1.Spec ing))).
Proof.
  intros Hbl. unfold brownfield.PruneIngressRules.
  destruct (v1beta1.Rules (v1beta1.Spec ing)) as [[|rule input]|]; simpl; try done.
  rewrite Hbl, pruneLoop_kept, pruneRule_kept. simpl.
  by destruct (keptRule _ rule).
Qed.

(** C10.  [PruneIngressRules] hands back the rule slice of the ingress as
    it is, nil or not, when that slice is nil or empty or when the derived
    blacklist is nil or empty; and a rule of the input without HTTP section
    is missing from the result exactly when the derived blacklist is not
    empty. *)
Theorem PruneIngressRules_passthrough ing prohibitedTargets :
  (v1beta1.Rules (v1beta1.Spec ing) = None
   \/ v1beta1.Rules (v1beta1.Spec ing) = Some []
   \/ GetTargetBlacklist prohibitedTargets = None
   \/ GetTargetBlacklist prohibitedTargets = Some [] ->
   PruneIngressRules ing prohibitedTargets = v1beta1.Rules (v1beta1.Spec ing))
  /\ (forall rule,
        rule ∈ elems (v1beta1.Rules (v1beta1.Spec ing)) ->
        v1beta1.HTTP rule = None ->
        (rule ∉ elems (PruneIngressRules ing prohibitedTargets)
         <-> brownfield.blacklist_is_empty
               (GetTargetBlacklist prohibitedTargets) = false)).
Proof.
  split.
  - unfold brownfield.PruneIngressRules.
    intros [H|[H|[H|H]]]; rewrite H; simpl; try done.
    + by destruct (_ || _).
    + by destruct (_ || _).
  - intros rule Hin Hhttp. split.
    + intros Hnot.
      destruct (brownfield.blacklist_is_empty _) eqn:Hbl; [|done].
      exfalso. apply Hnot. unfold brownfield.PruneIngressRules.
      rewrite Hbl. by destruct (_ || _).
    + intros Hbl Hres. unfold brownfield.PruneIngressRules in Hres.
      rewrite Hbl in Hres.
      destruct (_ || _) eqn:Hempty in Hres.
      * destruct (v1beta1.Rules (v1beta1.Spec ing)) as [[|r rs]|];
          simpl in *; try done; by apply elem_of_nil in Hin.
      * rewrite pruneLoop_kept in Hres. simpl in Hres.
        by apply pruned_rules_have_HTTP in Hres.
Qed.

End PruneFacts.

(** *** On the sample ingress *)

Lemma PruneIngressRules_keeps_witness :
  brownfield.blacklist_is_empty
    (brownfield.GetTargetBlacklist fixtures.prohibitedTargets) = false
  /\ elems (brownfield.PruneIngressRules brownfield.GetTargetBlacklist
              brownfield.IsBlacklisted fixtures.ingress fixtures.prohibitedTargets)
     = omap (brownfield.keptRule brownfield.IsBlacklisted
               (brownfield.GetTargetBlacklist fixtures.prohibitedTargets))
            (elems (v1beta1.Rules (v1beta1.Spec fixtures.ingress))).
Proof.
  split; [reflexivity|].
  apply (PruneIngressRules_keeps brownfield.GetTargetBlacklist
           brownfield.IsBlacklisted fixtures.ingress fixtures.prohibitedTargets).
  reflexivity.
Defined.

(** What comes out on the sample: the rule without HTTP section is gone, the
    rule with the nil path list is kept, and "/b" is what is left of the
    third rule. *)
Example PruneIngressRules_sample :
  brownfield.PruneIngressRules brownfield.GetTargetBlacklist
    brownfield.IsBlacklisted fixtures.ingress fixtures.prohibitedTargets
  = Some [ fixtures.ruleNilPaths;
           {| v1beta1.Host := "baz.com";
              v1beta1.HTTP :=
                Some {| v1beta1.Paths := Some [fixtures.path "/b"] |} |} ].
Proof. reflexivity. Qed.

(** C1 as it is worded fails on the sample: the blacklist is not empty, the
    first rule has no paths and its host "foo.com" is not blacklisted, and
    yet the rule is not kept. *)
Lemma PruneIngressRules_drops_rule_without_HTTP :
  brownfield.blacklist_is_empty
    (brownfield.GetTargetBlacklist fixtures.prohibitedTargets) = false
  /\ ~ brownfield.pathless_kept_iff_host_clear brownfield.GetTargetBlacklist
         brownfield.IsBlacklisted fixtures.ingress fixtures.prohibitedTargets.
Proof.
  split; [reflexivity|].
  intros Hclaim.
  destruct (Hclaim fixtures.ruleNoHTTP) as [_ Hkeep].
  - simpl. apply list_elem_of_here.
  - reflexivity.
  - specialize (Hkeep eq_refl).
    rewrite PruneIngressRules_sample in Hkeep. simpl in Hkeep.
    apply elem_of_cons in Hkeep as [Heq|Hkeep]; [discriminate Heq|].
    apply elem_of_cons in Hkeep as [Heq|Hkeep]; [discriminate Heq|].
    by apply elem_of_nil in Hkeep.
Qed.

(** A rule with an empty, non-nil path list goes the same way: nothing
    survives of its paths, so the rule is not kept, whatever its host. *)
Example PruneIngressRules_drops_empty_path_list :
  brownfield.PruneIngressRules brownfield.GetTargetBlacklist
    brownfield.IsBlacklisted fixtures.ingressEmptyPaths
    fixtures.prohibitedTargets = None.
Proof. reflexivity. Qed.

Lemma PruneIngressRules_passthrough_witness :
  brownfield.PruneIngressRules brownfield.GetTargetBlacklist
    brownfield.IsBlacklisted fixtures.ingress []
  = v1beta1.Rules (v1beta1.Spec fixtures.ingress)
  /\ brownfield.PruneIngressRules brownfield.GetTargetBlacklist
       brownfield.IsBlacklisted fixtures.ingressNoRules
       fixtures.prohibitedTargets
     = v1beta1.Rules (v1beta1.Spec fixtures.ingressNoRules)
  /\ (fixtures.ruleNoHTTP
        ∉ elems (brownfield.PruneIngressRules brownfield.GetTargetBlacklist
                   brownfield.IsBlacklisted fixtures.ingress
                   fixtures.prohibitedTargets)).
Proof.
  destruct (PruneIngressRules_passthrough brownfield.GetTargetBlacklist
              brownfield.IsBlacklisted fixtures.ingress []) as [Hsame _].
  destruct (PruneIngressRules_passthrough brownfield.GetTargetBlacklist
              brownfield.IsBlacklisted fixtures.ingress
              fixtures.prohibitedTargets) as [_ Hdrop].
  destruct (PruneIngressRules_passthrough brownfield.GetTargetBlacklist
              brownfield.IsBlacklisted fixtures.ingressNoRules
              fixtures.prohibitedTargets) as [Hnil _].
  split; [|split].
  - apply Hsame. right. right. right. reflexivity.
  - apply Hnil. left. reflexivity.
  - apply (Hdrop fixtures.ruleNoHTTP).
    + simpl. apply list_elem_of_here.
    + reflexivity.
    + reflexivity.
Defined.

(** ** Listener identifiers *)

(** C2.  Two rules of the same host get the same listener identifier under
    the same protocol and port override; more generally the identifier is
    settled by the host and the resolved frontend port, and the resolved
    port does not depend on the rule at all. *)
Theorem generateListenerID_collapses :
  (forall rule1 rule2 protocol overridePort,
     v1beta1.Host rule1 = v1beta1.Host rule2 ->
     appgw.generateListenerID rule1 protocol overridePort
     = appgw.generateListenerID rule2 protocol overridePort)
  /\ (forall rule1 rule2 protocol1 protocol2 override1 override2,
        v1beta1.Host rule1 = v1beta1.Host rule2 ->
        appgw.FrontendPort (appgw.generateListenerID rule1 protocol1 override1)
        = appgw.FrontendPort (appgw.generateListenerID rule2 protocol2 override2) ->
        appgw.generateListenerID rule1 protocol1 override1
        = appgw.generateListenerID rule2 protocol2 override2)
  /\ (forall rule1 rule2 protocol overridePort,
        appgw.FrontendPort (appgw.generateListenerID rule1 protocol overridePort)
        = appgw.FrontendPort (appgw.generateListenerID rule2 protocol overridePort)).
Proof.
  unfold appgw.generateListenerID. repeat split.
  - intros rule1 rule2 protocol overridePort Hhost. by rewrite Hhost.
  - intros rule1 rule2 protocol1 protocol2 override1 override2 Hhost Hport.
    simpl in Hport. by rewrite Hhost, Hport.
Qed.

Lemma generateListenerID_collapses_witness :
  v1beta1.Host fixtures.ruleNilPaths = v1beta1.Host fixtures.ruleBarNoHTTP
  /\ appgw.generateListenerID fixtures.ruleNilPaths appgw.HTTPS None
     = appgw.generateListenerID fixtures.ruleBarNoHTTP appgw.HTTPS None.
Proof.
  split; [reflexivity|].
  apply (proj1 generateListenerID_collapses). reflexivity.
Defined.

(** C7.  The frontend port is 80 for HTTP and 443 for HTTPS when no override
    is given, and the override whenever one is given, whatever the
    protocol. *)
Theorem generateListenerID_frontend_port rule :
  appgw.FrontendPort (appgw.generateListenerID rule appgw.HTTP None) = 80%Z
  /\ appgw.FrontendPort (appgw.generateListenerID rule appgw.HTTPS None) = 443%Z
  /\ forall protocol port,
       appgw.FrontendPort (appgw.generateListenerID rule protocol (Some port))
       = port.
Proof. repeat split. Qed.

(** ** Port resolution *)

Section ResolveFacts.

Context {ApplicationGatewayPropertiesFormat EventRecorder : Type}.
Variable serviceKey : appgw.serviceIdentifier -> string.

Local Abbreviation builder :=
  (@appgw.appGwConfigBuilder ApplicationGatewayPropertiesFormat EventRecorder).

Lemma collect_ports portName (ports : list v1.EndpointPort) :
  forall (resolved : gset Z) port,
    port ∈ foldl (fun resolved epPort =>
                    if String.eqb (v1.Name epPort) portName
                    then {[ v1.Port epPort ]} ∪ resolved
                    else resolved) resolved ports
    <-> port ∈ resolved
        \/ exists epPort, epPort ∈ ports /\ v1.Name epPort = portName
                          /\ v1.Port epPort = port.
Proof.
  induction ports as [|ep ports IH]; intros resolved port; simpl.
  - split; [by left|]. intros [H|(ep & H & _)]; [done|].
    by apply elem_of_nil in H.
  - rewrite IH. destruct (String.eqb_spec (v1.Name ep) portName) as [Hn|Hn].
    + rewrite elem_of_union, elem_of_singleton. split.
      * intros [[->|H]|(ep' & Hin & Hn' & Hp)].
        -- right. exists ep. split; [apply list_elem_of_here|done].
        -- by left.
        -- right. exists ep'. split; [by apply list_elem_of_further|done].
      * intros [H|(ep' & Hin & Hn' & Hp)]; [by left; right|].
        apply elem_of_cons in Hin as [->|Hin]; [by left; left|].
        right. by exists ep'.
    + split.
      * intros [H|(ep' & Hin & Hn' & Hp)]; [by left|].
        right. exists ep'. split; [by apply list_elem_of_further|done].
      * intros [H|(ep' & Hin & Hn' & Hp)]; [by left|].
        apply elem_of_cons in Hin as [->|Hin]; [done|].
        right. by exists ep'.
Qed.

Lemma collect_subsets portName (subsets : list v1.EndpointSubset) :
  forall (resolved : gset Z) port,
    port ∈ foldl (fun resolved subset =>
                    foldl (fun resolved epPort =>
                             if String.eqb (v1.Name epPort) portName
                             then {[ v1.Port epPort ]} ∪ resolved
                             else resolved) resolved (v1.Ports subset))
                 resolved subsets
    <-> port ∈ resolved
        \/ exists subset epPort,
             subset ∈ subsets /\ epPort ∈ v1.Ports subset
             /\ v1.Name epPort = portName /\ v1.Port epPort = port.
Proof.
  induction subsets as [|s subsets IH]; intros resolved port; simpl.
  - split; [by left|]. intros [H|(s & ep & H & _)]; [done|].
    by apply elem_of_nil in H.
  - rewrite IH, collect_ports. split.
    + intros [[H|(ep & Hin & Hn)]|(s' & ep & Hs & Hin & Hn)].
      * by left.
      * right. exists s, ep. split; [apply list_elem_of_here|done].
      * right. exists s', ep. split; [by apply list_elem_of_further|done].
    + intros [H|(s' & ep & Hs & Hin & Hn)]; [by left; left|].
      apply elem_of_cons in Hs as [->|Hs].
      * left. right. by exists ep.
      * right. by exists s', ep.
Qed.

(** C3.  [resolvePortName] yields the empty set when the cache lookup
    fails or finds no Endpoints object; otherwise its members are exactly
    the numbers of the ports, over all subsets, that carry the requested
    name; and one subset with the single port "http" at 8080 resolves
    "http" to {8080}. *)
Theorem resolvePortName_spec (c : builder) portName backendID :
  let lookup :=
    appgw.GetEndpointsByService (appgw.k8sContext c)
      (serviceKey (appgw.backend_serviceIdentifier backendID)) in
  (forall endpoints err,
     lookup = (endpoints, Some err) ->
     appgw.resolvePortName serviceKey c portName backendID = ∅)
  /\ (lookup = (None, None) ->
      appgw.resolvePortName serviceKey c portName backendID = ∅)
  /\ (forall endpoints,
        lookup = (Some endpoints, None) ->
        forall port,
          port ∈ appgw.resolvePortName serviceKey c portName backendID
          <-> appgw.namedPort endpoints portName port)
  /\ (lookup
      = (Some {| v1.Subsets :=
                   [ {| v1.Ports :=
                          [ {| v1.Name := "http"; v1.Port := 8080 |} ] |} ] |},
         None) ->
      portName = "http" ->
      appgw.resolvePortName serviceKey c portName backendID = {[ 8080%Z ]}).
Proof.
  intros lookup. unfold appgw.resolvePortName. fold lookup.
  repeat split.
  - intros endpoints err ->. by destruct endpoints.
  - by intros ->.
  - intros Hin. rewrite H in Hin.
    apply collect_subsets in Hin as [Hin|Hin]; [|done].
    by apply not_elem_of_empty in Hin.
  - intros Hnamed. rewrite H. apply collect_subsets. by right.
  - intros -> ->. simpl. apply set_eq. intros port.
    rewrite elem_of_union, elem_of_singleton. split; [|by left].
    intros [H|H]; [done|]. by apply not_elem_of_empty in H.
Qed.

(** C9.  When the cache answers the two service keys alike, the resolver
    keyed by ingress backend and the one keyed by virtual-service
    destination yield the same set of ports. *)
Theorem resolvers_agree (c : builder) portName backendID destinationID :
  appgw.GetEndpointsByService (appgw.k8sContext c)
    (serviceKey (appgw.backend_serviceIdentifier backendID))
  = appgw.GetEndpointsByService (appgw.k8sContext c)
      (serviceKey (appgw.destination_serviceIdentifier destinationID)) ->
  appgw.resolvePortName serviceKey c portName backendID
  = appgw.resolveIstioPortName serviceKey c portName destinationID.
Proof.
  intros Hlookup.
  unfold appgw.resolvePortName, appgw.resolveIstioPortName.
  by rewrite Hlookup.
Qed.

End ResolveFacts.

(** *** On the sample cache *)

Lemma resolvePortName_spec_witness :
  appgw.resolvePortName fixtures.serviceKey fixtures.builder "http"
    fixtures.backendID = {[ 8080%Z ]}
  /\ appgw.resolvePortName fixtures.serviceKey fixtures.builder "http"
       (appgw.generateBackendID fixtures.ingress fixtures.ruleTwoPaths
          (fixtures.path "/a") (fixtures.backend "gone")) = ∅
  /\ appgw.resolvePortName fixtures.serviceKey fixtures.builder "http"
       (appgw.generateBackendID fixtures.ingress fixtures.ruleTwoPaths
          (fixtures.path "/a") (fixtures.backend "other")) = ∅.
Proof.
  split; [|split].
  - destruct (resolvePortName_spec fixtures.serviceKey fixtures.builder "http"
                fixtures.backendID) as (_ & _ & _ & Hhttp).
    apply Hhttp; reflexivity.
  - destruct (resolvePortName_spec fixtures.serviceKey fixtures.builder "http"
                (appgw.generateBackendID fixtures.ingress fixtures.ruleTwoPaths
                   (fixtures.path "/a") (fixtures.backend "gone")))
      as (_ & Hgone & _).
    apply Hgone; reflexivity.
  - destruct (resolvePortName_spec fixtures.serviceKey fixtures.builder "http"
                (appgw.generateBackendID fixtures.ingress fixtures.ruleTwoPaths
                   (fixtures.path "/a") (fixtures.backend "other")))
      as (Herr & _).
    apply (Herr None "cache lookup failed"); reflexivity.
Defined.

Lemma resolvers_agree_witness :
  appgw.resolvePortName fixtures.serviceKey fixtures.builder "http"
    fixtures.backendID
  = appgw.resolveIstioPortName fixtures.serviceKey fixtures.builder "http"
      fixtures.destinationID.
Proof.
  apply (resolvers_agree fixtures.serviceKey fixtures.builder "http"
           fixtures.backendID fixtures.destinationID).
  reflexivity.
Defined.

(** ** The validation harness *)

Section ValidationFacts.

Context {ApplicationGatewayPropertiesFormat EnvVariables Service
         EventRecorder : Type}.

Local Abbreviation builder :=
  (@appgw.appGwConfigBuilder ApplicationGatewayPropertiesFormat EventRecorder).
Local Abbreviation context :=
  (@appgw.ConfigBuilderContext EnvVariables Service).
Local Abbreviation valFunc :=
  (@appgw.valFunc ApplicationGatewayPropertiesFormat EnvVariables Service
     EventRecorder).

Lemma runValidationFunctions_passes (cbCtx : context) (c c' : builder)
    (fns : list valFunc) :
  appgw.passes cbCtx c fns c' ->
  appgw.runValidationFunctions c cbCtx fns = (c', None).
Proof.
  induction 1 as [c|c c' c'' fn fns Hcall _ IH]; simpl; [done|].
  by rewrite Hcall.
Qed.

Lemma runValidationFunctions_app (cbCtx : context) (c c' : builder)
    (pre post : list valFunc) :
  appgw.passes cbCtx c pre c' ->
  appgw.runValidationFunctions c cbCtx (pre ++ post)
  = appgw.runValidationFunctions c' cbCtx post.
Proof.
  induction 1 as [c|c c' c'' fn fns Hcall _ IH]; simpl; [done|].
  by rewrite Hcall.
Qed.

(** Every run is of one of two kinds: all validators pass, or there is a
    first one that fails after its predecessors passed. *)
Lemma runValidationFunctions_cases (cbCtx : context) (fns : list valFunc) :
  forall c : builder,
    (exists c', appgw.passes cbCtx c fns c')
    \/ (exists pre fn post c1 c2 err,
          fns = pre ++ fn :: post
          /\ appgw.passes cbCtx c pre c1
          /\ appgw.callValidator c1 cbCtx fn = (c2, Some err)).
Proof.
  induction fns as [|fn fns IH]; intros c.
  - left. exists c. constructor.
  - destruct (appgw.callValidator c cbCtx fn) as [c1 [err|]] eqn:Hcall.
    + right. exists [], fn, fns, c, c1, err. repeat split; [constructor|done].
    + destruct (IH c1) as [(c' & Hp)|(pre & fn' & post & c2 & c3 & err & -> & Hp & Hf)].
      * left. exists c'. by econstructor.
      * right. exists (fn :: pre), fn', post, c2, c3, err.
        repeat split; [by econstructor|done].
Qed.

(** C8.  The harness calls the validators in list order, each on the
    builder its predecessor left.  When all of them pass it reports
    success; when one fails after its predecessors passed, the harness
    hands back the error of that validator as it is and the builder as
    that validator left it, whatever validators follow in the list. *)
Theorem runValidationFunctions_short_circuit (cbCtx : context) (c : builder) :
  (forall fns c',
     appgw.passes cbCtx c fns c' ->
     appgw.runValidationFunctions c cbCtx fns = (c', None))
  /\ (forall pre fn post c1 c2 err,
        appgw.passes cbCtx c pre c1 ->
        appgw.callValidator c1 cbCtx fn = (c2, Some err) ->
        appgw.runValidationFunctions c cbCtx (pre ++ fn :: post)
        = (c2, Some err)).
Proof.
  split.
  - intros fns c'. apply runValidationFunctions_passes.
  - intros pre fn post c1 c2 err Hpre Hfail.
    rewrite (runValidationFunctions_app _ _ _ _ _ Hpre). simpl.
    by rewrite Hfail.
Qed.

(** The two entry points run the harness on their one validator. *)
Lemma PreBuildValidate_runs (validateServiceDefinition : valFunc)
    (c : builder) (cbCtx : context) :
  appgw.PreBuildValidate validateServiceDefinition c cbCtx
  = appgw.callValidator c cbCtx validateServiceDefinition.
Proof.
  unfold appgw.PreBuildValidate. simpl.
  by destruct (appgw.callValidator _ _ _) as [c' [err|]].
Qed.

Lemma PostBuildValidate_runs (validateURLPathMaps : valFunc)
    (c : builder) (cbCtx : context) :
  appgw.PostBuildValidate validateURLPathMaps c cbCtx
  = appgw.callValidator c cbCtx validateURLPathMaps.
Proof.
  unfold appgw.PostBuildValidate. simpl.
  by destruct (appgw.callValidator _ _ _) as [c' [err|]].
Qed.

End ValidationFacts.

(** Two validators pass, the third fails with "first failure", a fourth that
    would fail as well is never called: its name is not recorded. *)
Lemma runValidationFunctions_short_circuit_witness :
  appgw.runValidationFunctions fixtures.builder fixtures.cbCtx
    ([fixtures.passing "a"; fixtures.passing "b"]
       ++ fixtures.failing "c" "first failure"
       :: [fixtures.failing "d" "second failure"])
  = (appgw.set_recorder fixtures.builder ["a"; "b"; "c"], Some "first failure").
Proof.
  apply (proj2 (runValidationFunctions_short_circuit fixtures.cbCtx
                  fixtures.builder)
           _ _ _ (appgw.set_recorder fixtures.builder ["a"; "b"])).
  - eapply appgw.passes_cons; [reflexivity|].
    eapply appgw.passes_cons; [reflexivity|].
    apply appgw.passes_nil.
  - reflexivity.
Defined.

(** ** Build *)

Section BuildFacts.

Context {ApplicationGatewayPropertiesFormat EnvVariables Service
         EventRecorder : Type}.

Local Abbreviation builder :=
  (@appgw.appGwConfigBuilder ApplicationGatewayPropertiesFormat EventRecorder).
Local Abbreviation context :=
  (@appgw.ConfigBuilderContext EnvVariables Service).
Local Abbreviation stage :=
  (@appgw.stage ApplicationGatewayPropertiesFormat EnvVariables Service
     EventRecorder).

Variable HealthProbesCollection : stage.
Variable BackendHTTPSettingsCollection : stage.
Variable BackendAddressPools : stage.
Variable Listeners : stage.
Variable RequestRoutingRules : stage.
Variable managedByK8sIngress : string.
Variable Version GitCommit BuildDate : string.

Local Abbreviation Build :=
  (appgw.Build HealthProbesCollection BackendHTTPSettingsCollection
     BackendAddressPools Listeners RequestRoutingRules
     managedByK8sIngress Version GitCommit BuildDate).

(** C4.  Whichever stage fails first, and whatever its error, [Build]
    hands back no gateway, the fixed message of that stage, and the
    builder as the failing stage left it: no later stage has touched
    it. *)
Theorem Build_stage_failure (c : builder) (cbCtx : context) :
  (forall c1 cause,
     HealthProbesCollection cbCtx c = (c1, Some cause) ->
     Build c cbCtx = (c1, (None, Some "unable to generate health probes")))
  /\ (forall c1 c2 cause,
        HealthProbesCollection cbCtx c = (c1, None) ->
        BackendHTTPSettingsCollection cbCtx c1 = (c2, Some cause) ->
        Build c cbCtx
        = (c2, (None, Some "unable to generate backend http settings")))
  /\ (forall c1 c2 c3 cause,
        HealthProbesCollection cbCtx c = (c1, None) ->
        BackendHTTPSettingsCollection cbCtx c1 = (c2, None) ->
        BackendAddressPools cbCtx c2 = (c3, Some cause) ->
        Build c cbCtx
        = (c3, (None, Some "unable to generate backend address pools")))
  /\ (forall c1 c2 c3 c4 cause,
        HealthProbesCollection cbCtx c = (c1, None) ->
        BackendHTTPSettingsCollection cbCtx c1 = (c2, None) ->
        BackendAddressPools cbCtx c2 = (c3, None) ->
        Listeners cbCtx c3 = (c4, Some cause) ->
        Build c cbCtx
        = (c4, (None, Some "unable to generate frontend listeners")))
  /\ (forall c1 c2 c3 c4 c5 cause,
        HealthProbesCollection cbCtx c = (c1, None) ->
        BackendHTTPSettingsCollection cbCtx c1 = (c2, None) ->
        BackendAddressPools cbCtx c2 = (c3, None) ->
        Listeners cbCtx c3 = (c4, None) ->
        RequestRoutingRules cbCtx c4 = (c5, Some cause) ->
        Build c cbCtx
        = (c5, (None, Some "unable to generate request routing rules"))).
Proof.
  unfold appgw.Build. repeat split.
  - by intros c1 cause ->.
  - by intros c1 c2 cause -> ->.
  - by intros c1 c2 c3 cause -> -> ->.
  - by intros c1 c2 c3 c4 cause -> -> -> ->.
  - by intros c1 c2 c3 c4 c5 cause -> -> -> -> ->.
Qed.

(** The other way round: an error from [Build] comes without a gateway and
    is one of the five stage messages; a gateway comes without error, when
    all five stages passed, and carries the management tag. *)
Lemma Build_outcome (c c' : builder) (cbCtx : context) gw err :
  Build c cbCtx = (c', (gw, err)) ->
  (gw = None
   /\ exists msg, err = Some msg
        /\ msg ∈ [ "unable to generate health probes";
                   "unable to generate backend http settings";
                   "unable to generate backend address pools";
                   "unable to generate frontend listeners";
                   "unable to generate request routing rules" ])
  \/ (err = None /\ gw = Some (appgw.appGw c')
      /\ exists c5, RequestRoutingRules cbCtx
                      (Listeners cbCtx
                         (BackendAddressPools cbCtx
                            (BackendHTTPSettingsCollection cbCtx
                               (HealthProbesCollection cbCtx c).1).1).1).1
                    = (c5, None)
                    /\ c' = appgw.addTags managedByK8sIngress Version
                              GitCommit BuildDate c5).
Proof.
  unfold appgw.Build.
  destruct (HealthProbesCollection cbCtx c) as [c1 [e|]]; simpl.
  { intros [= <- <- <-]. left. split; [done|]. eexists. split; [done|].
    set_solver. }
  destruct (BackendHTTPSettingsCollection cbCtx c1) as [c2 [e|]]; simpl.
  { intros [= <- <- <-]. left. split; [done|]. eexists. split; [done|].
    set_solver. }
  destruct (BackendAddressPools cbCtx c2) as [c3 [e|]]; simpl.
  { intros [= <- <- <-]. left. split; [done|]. eexists. split; [done|].
    set_solver. }
  destruct (Listeners cbCtx c3) as [c4 [e|]]; simpl.
  { intros [= <- <- <-]. left. split; [done|]. eexists. split; [done|].
    set_solver. }
  destruct (RequestRoutingRules cbCtx c4) as [c5 [e|]]; simpl.
  { intros [= <- <- <-]. left. split; [done|]. eexists. split; [done|].
    set_solver. }
  intros [= <- <- <-]. right. repeat split. by exists c5.
Qed.

End BuildFacts.

(** The listener stage fails on the sample: the first four stages have left
    their mark on the builder, the fifth has not, and the cause does not
    show in the error. *)
Lemma Build_stage_failure_witness :
  appgw.Build (fixtures.stageOk "probes") (fixtures.stageOk "settings")
    (fixtures.stageOk "pools") (fixtures.stageFails "listeners" "no port")
    (fixtures.stageOk "rules") "managed-by-k8s-ingress" "1.0" "abc" "today"
    fixtures.builder fixtures.cbCtx
  = (appgw.set_recorder fixtures.builder
       ["probes"; "settings"; "pools"; "listeners"],
     (None, Some "unable to generate frontend listeners")).
Proof.
  destruct (Build_stage_failure
              (fixtures.stageOk "probes") (fixtures.stageOk "settings")
              (fixtures.stageOk "pools") (fixtures.stageFails "listeners" "no port")
              (fixtures.stageOk "rules") "managed-by-k8s-ingress" "1.0" "abc"
              "today" fixtures.builder fixtures.cbCtx)
    as (_ & _ & _ & Hlisteners & _).
  apply (Hlisteners (appgw.set_recorder fixtures.builder ["probes"])
           (appgw.set_recorder fixtures.builder ["probes"; "settings"])
           (appgw.set_recorder fixtures.builder ["probes"; "settings"; "pools"])
           _ "no port"); reflexivity.
Defined.

(** ** Existing listeners *)

Section ListenerFacts.

Variable pathSet :
  brownfield.ExistingResources -> brownfield.HTTPListener -> list string.

Lemma filter_split_length {A} (f : A -> bool) (l : list A) :
  length (List.filter f l) + length (List.filter (fun x => negb (f x)) l)
  = length l.
Proof.
  induction l as [|x l IH]; simpl; [done|].
  destruct (f x); simpl; lia.
Qed.

(** C5.  The two lists of [GetBlacklistedListeners] split the existing
    listeners: their lengths add up to the number of listeners, no
    listener is in both, and every listener is in one of them. *)
Theorem GetBlacklistedListeners_partition (er : brownfield.ExistingResources) :
  let '(blacklisted, nonBlacklisted) :=
    brownfield.GetBlacklistedListeners pathSet er in
  length blacklisted + length nonBlacklisted
  = length (brownfield.Listeners er)
  /\ (forall l, l ∈ blacklisted -> l ∉ nonBlacklisted)
  /\ (forall l, l ∈ brownfield.Listeners er
                <-> l ∈ blacklisted \/ l ∈ nonBlacklisted).
Proof.
  unfold brownfield.GetBlacklistedListeners.
  split; [apply filter_split_length|]. split.
  - intros l Hb Hn.
    apply list_elem_of_In, filter_In in Hb as [_ Hb].
    apply list_elem_of_In, filter_In in Hn as [_ Hn].
    by rewrite Hb in Hn.
  - intros l. rewrite !list_elem_of_In, !filter_In. split.
    + intros Hin.
      destruct (brownfield.isBlacklistedListener pathSet er l); [left|right]; done.
    + intros [[Hin _]|[Hin _]]; done.
Qed.

End ListenerFacts.

(** ** Pruning over the heap *)

Section MemFacts.

Variable growcap : nat -> nat.
Variable GetTargetBlacklist :
  list ptv1.AzureIngressProhibitedTarget -> brownfield.TargetBlacklist.
Variable IsBlacklisted :
  brownfield.Target -> brownfield.TargetBlacklist -> bool.

Implicit Types (h : mem.heap) (s : mem.sliceHdr) (l : mem.loc).

(** *** Reading is stable when the heap grows *)

Lemma readSlice_mono {A} (k : mem.arrayKind A) h h' s xs :
  h ⊆ h' -> mem.readSlice k h s = Some xs -> mem.readSlice k h' s = Some xs.
Proof.
  intros Hsub. unfold mem.readSlice.
  destruct (mem.data s) as [| |l]; try done.
  destruct (h !! l) as [c|] eqn:Hl; [|done].
  by rewrite (lookup_weaken _ _ _ _ Hl Hsub).
Qed.

Lemma readPaths_mono h h' s ps :
  h ⊆ h' -> mem.readPaths h s = Some ps -> mem.readPaths h' s = Some ps.
Proof.
  intros Hsub. unfold mem.readPaths.
  destruct (mem.readSlice mem.pathArrays h s) as [xs|] eqn:Hs; [|done].
  by rewrite (readSlice_mono _ _ _ _ _ Hsub Hs).
Qed.

Lemma readRule_mono h h' rule r :
  h ⊆ h' -> mem.readRule h rule = Some r -> mem.readRule h' rule = Some r.
Proof.
  intros Hsub. unfold mem.readRule.
  destruct (mem.HTTP rule) as [p|]; [|done].
  destruct (h !! p) as [c|] eqn:Hp; [|done].
  rewrite (lookup_weaken _ _ _ _ Hp Hsub).
  destruct c as [| |v|]; try done.
  destruct (mem.readPaths h (mem.Paths v)) as [ps|] eqn:Hps; [|done].
  by rewrite (readPaths_mono _ _ _ _ Hsub Hps).
Qed.

Lemma readAll_mono h h' rules rs :
  h ⊆ h' -> mem.readAll h rules = Some rs -> mem.readAll h' rules = Some rs.
Proof.
  intros Hsub. revert rs.
  induction rules as [|rule rules IH]; intros rs; simpl; [done|].
  destruct (mem.readRule h rule) as [r|] eqn:Hr; [|done].
  rewrite (readRule_mono _ _ _ _ Hsub Hr).
  destruct (mem.readAll h rules) as [rs'|]; [|done].
  by rewrite (IH rs' eq_refl).
Qed.

Lemma readRules_mono h h' s rs :
  h ⊆ h' -> mem.readRules h s = Some rs -> mem.readRules h' s = Some rs.
Proof.
  intros Hsub. unfold mem.readRules.
  destruct (mem.readSlice mem.ruleArrays h s) as [raw|] eqn:Hs; [|done].
  rewrite (readSlice_mono _ _ _ _ _ Hsub Hs).
  destruct (mem.readAll h raw) as [rs'|] eqn:Ha; [|done].
  by rewrite (readAll_mono _ _ _ _ Hsub Ha).
Qed.

Lemma readIngress_mono h h' p ing :
  h ⊆ h' -> mem.readIngress h p = Some ing -> mem.readIngress h' p = Some ing.
Proof.
  intros Hsub. unfold mem.readIngress.
  destruct (h !! p) as [c|] eqn:Hp; [|done].
  rewrite (lookup_weaken _ _ _ _ Hp Hsub).
  destruct c as [| | |i]; try done.
  destruct (mem.readRules h (mem.Rules i)) as [rs|] eqn:Hrs; [|done].
  by rewrite (readRules_mono _ _ _ _ Hsub Hrs).
Qed.

(** *** Rewriting a rule array leaves what the rules stand for as it was *)

Lemma readRule_insert_rules h l xs ys rule :
  h !! l = Some (mem.RuleArray xs) ->
  mem.readRule (<[l := mem.RuleArray ys]> h) rule = mem.readRule h rule.
Proof.
  intros Hl. unfold mem.readRule.
  destruct (mem.HTTP rule) as [p|]; [|done].
  destruct (decide (l = p)) as [->|Hne].
  { by rewrite lookup_insert_eq, Hl. }
  rewrite lookup_insert_ne by done.
  destruct (h !! p) as [[| |v|]|]; try done.
  unfold mem.readPaths, mem.readSlice.
  destruct (mem.data (mem.Paths v)) as [| |l']; try done.
  destruct (decide (l = l')) as [->|Hne'].
  { by rewrite lookup_insert_eq, Hl. }
  by rewrite lookup_insert_ne.
Qed.

Lemma readAll_insert_rules h l xs ys rules :
  h !! l = Some (mem.RuleArray xs) ->
  mem.readAll (<[l := mem.RuleArray ys]> h) rules = mem.readAll h rules.
Proof.
  intros Hl. induction rules as [|rule rules IH]; simpl; [done|].
  by rewrite (readRule_insert_rules _ _ _ _ _ Hl), IH.
Qed.

Lemma readAll_app h rules1 rules2 rs1 rs2 :
  mem.readAll h rules1 = Some rs1 -> mem.readAll h rules2 = Some rs2 ->
  mem.readAll h (rules1 ++ rules2) = Some (rs1 ++ rs2).
Proof.
  revert rs1. induction rules1 as [|rule rules1 IH]; intros rs1; simpl.
  - by intros [= <-].
  - destruct (mem.readRule h rule) as [r|]; [|done].
    destruct (mem.readAll h rules1) as [rs|]; [|done].
    intros [= <-] H2. by rewrite (IH rs eq_refl H2).
Qed.

Lemma readAll_lookup h rules rs i rule :
  mem.readAll h rules = Some rs -> rules !! i = Some rule ->
  exists r, mem.readRule h rule = Some r /\ rs !! i = Some r.
Proof.
  revert rs i. induction rules as [|x rules IH]; intros rs i; simpl; [done|].
  destruct (mem.readRule h x) as [r|] eqn:Hr; [|done].
  destruct (mem.readAll h rules) as [rs'|]; [|done].
  intros [= <-]. destruct i as [|i]; simpl.
  - intros [= <-]. by exists r.
  - intros Hi. by apply (IH rs' i eq_refl).
Qed.

Lemma readAll_length h rules rs :
  mem.readAll h rules = Some rs -> length rs = length rules.
Proof.
  revert rs. induction rules as [|x rules IH]; intros rs; simpl.
  - by intros [= <-].
  - destruct (mem.readRule h x) as [r|]; [|done].
    destruct (mem.readAll h rules) as [rs'|]; [|done].
    intros [= <-]. simpl. by rewrite (IH rs' eq_refl).
Qed.

(** *** The primitives on well-formed slices *)

Lemma ruleArrays_lawful : mem.lawful mem.ruleArrays.
Proof. split; [done|]. intros [] xs; simpl; congruence. Qed.

Lemma pathArrays_lawful : mem.lawful mem.pathArrays.
Proof. split; [done|]. intros [] xs; simpl; congruence. Qed.

Lemma readSlice_length {A} (k : mem.arrayKind A) h s xs :
  mem.readSlice k h s = Some xs -> length xs = mem.slen s.
Proof.
  unfold mem.readSlice.
  destruct (mem.data s) as [| |l].
  - destruct (Nat.eqb_spec (mem.slen s) 0) as [->|]; simpl; [|done].
    destruct (Nat.eqb _ _); [|done]. by intros [= <-].
  - destruct (Nat.eqb_spec (mem.slen s) 0) as [->|]; simpl; [|done].
    destruct (Nat.eqb _ _); [|done]. by intros [= <-].
  - destruct (h !! l) as [c|]; [|done].
    destruct (mem.ofCell k c) as [ys|]; [|done].
    destruct (Nat.leb_spec (mem.slen s) (length ys)); [|done].
    intros [= <-]. by apply length_take_le.
Qed.

Lemma index_read {A} (k : mem.arrayKind A) h s xs i x :
  mem.readSlice k h s = Some xs -> xs !! i = Some x ->
  mem.index k s i h = Some (x, h).
Proof.
  intros Hread Hi.
  pose proof (readSlice_length _ _ _ _ Hread) as Hlen.
  pose proof (lookup_lt_Some _ _ _ Hi) as Hlt. rewrite Hlen in Hlt.
  unfold mem.index, mem.loadArray.
  destruct (Nat.ltb_spec i (mem.slen s)); [|lia].
  revert Hread. unfold mem.readSlice.
  destruct (mem.data s) as [| |l].
  - destruct (_ && _); [|done]. intros [= <-]. done.
  - destruct (_ && _); [|done]. intros [= <-]. done.
  - destruct (h !! l) as [c|]; [|done].
    destruct (mem.ofCell k c) as [ys|]; [|done].
    destruct (Nat.leb_spec (mem.slen s) (length ys)); [|done].
    intros [= <-]. apply lookup_take_Some in Hi as [Hi _]. by rewrite Hi.
Qed.

Lemma take_write {A} n (ys : list A) x :
  n <= length ys ->
  S n <= length (take n ys ++ x :: drop (S n) ys)
  /\ take (S n) (take n ys ++ x :: drop (S n) ys) = take n ys ++ [x].
Proof.
  intros Hle. split.
  - rewrite length_app, length_take_le by done. simpl. lia.
  - replace (S n) with (n + 1) at 1 by lia.
    by rewrite take_app_add' by (by rewrite length_take_le).
Qed.

(** What [append] finds in its slice when it has to copy. *)
Lemma copied_elements {A} (k : mem.arrayKind A) h s xs :
  mem.readSlice k h s = Some xs ->
  match mem.data s with
  | mem.ArrayAt l =>
      mem.bind (mem.loadArray k l)
        (fun ys => if Nat.leb (mem.slen s) (length ys)
                   then mem.ret (take (mem.slen s) ys)
                   else fun _ => None)
  | _ => if Nat.eqb (mem.slen s) 0 then mem.ret [] else fun _ => None
  end h = Some (xs, h).
Proof.
  unfold mem.readSlice.
  destruct (mem.data s) as [| |l].
  - destruct (Nat.eqb_spec (mem.slen s) 0); simpl; [|done].
    destruct (Nat.eqb _ _); [|done]. by intros [= <-].
  - destruct (Nat.eqb_spec (mem.slen s) 0); simpl; [|done].
    destruct (Nat.eqb _ _); [|done]. by intros [= <-].
  - unfold mem.bind, mem.loadArray.
    destruct (h !! l) as [c|]; [|done].
    destruct (mem.ofCell k c) as [ys|]; [|done].
    destruct (Nat.leb (mem.slen s) (length ys)); [|done].
    by intros [= <-].
Qed.

(** [append] succeeds on a well-formed slice.  The heap it leaves differs
    from the one it found in one cell [l], an array of the kind at hand,
    which backs the new slice: the old backing array when there was room,
    a cell that did not exist when there was none. *)
Lemma append_spec {A} (k : mem.arrayKind A) h s (x : A) xs :
  mem.lawful k ->
  mem.readSlice k h s = Some xs ->
  exists s' h' l zs,
    mem.append growcap k s x h = Some (s', h')
    /\ mem.data s' = mem.ArrayAt l
    /\ h' = <[l := mem.toCell k zs]> h
    /\ mem.readSlice k h' s' = Some (xs ++ [x])
    /\ ((mem.data s = mem.ArrayAt l /\ exists ys, h !! l = Some (mem.toCell k ys))
        \/ h !! l = None).
Proof.
  intros [Hto Hof] Hread.
  pose proof (readSlice_length _ _ _ _ Hread) as Hlen.
  unfold mem.append.
  destruct (Nat.ltb_spec (mem.slen s) (mem.scap s)) as [Hroom|Hfull].
  - (* room left: write in place *)
    revert Hread. unfold mem.readSlice.
    destruct (mem.data s) as [| |l] eqn:Hdata.
    { destruct (Nat.eqb_spec (mem.slen s) 0); simpl; [|done].
      destruct (Nat.eqb_spec (mem.scap s) 0); [lia|done]. }
    { destruct (Nat.eqb_spec (mem.slen s) 0); simpl; [|done].
      destruct (Nat.eqb_spec (mem.scap s) 0); [lia|done]. }
    destruct (h !! l) as [c|] eqn:Hl; [|done].
    destruct (mem.ofCell k c) as [ys|] eqn:Hc; [|done].
    destruct (Nat.leb_spec (mem.slen s) (length ys)) as [Hle|]; [|done].
    intros [= <-].
    destruct (take_write (mem.slen s) ys x Hle) as [Hlen' Htake].
    eexists _, _, l, _. unfold mem.bind, mem.loadArray, mem.store, mem.ret.
    rewrite Hl, Hc.
    destruct (Nat.leb_spec (mem.slen s) (length ys)); [|lia].
    rewrite Hl. split; [reflexivity|].
    cbn [mem.data mem.slen mem.scap].
    split; [done|]. split; [done|]. split.
    + rewrite lookup_insert_eq, Hto.
      destruct (Nat.leb_spec (S (mem.slen s))
                  (length (take (mem.slen s) ys ++ x :: drop (S (mem.slen s)) ys)));
        [|lia].
      by rewrite Htake.
    + left. split; [done|]. exists ys. f_equal. by apply Hof.
  - (* full: copy to a new array *)
    eexists _, _, (fresh (dom h)), _.
    unfold mem.bind at 1. rewrite (copied_elements _ _ _ _ Hread).
    unfold mem.bind, mem.alloc, mem.ret.
    split; [reflexivity|].
    unfold mem.readSlice. cbn [mem.data mem.slen mem.scap].
    split; [done|]. split; [done|]. split.
    + rewrite lookup_insert_eq, Hto.
      assert (length (xs ++ [x]) = S (mem.slen s)) as Hlen'
        by (rewrite length_app; simpl; lia).
      rewrite Hlen'.
      destruct (Nat.leb_spec (S (mem.slen s)) (S (mem.slen s))); [|lia].
      f_equal. apply take_ge. lia.
    + right. apply not_elem_of_dom, is_fresh.
Qed.

(** *** Loops *)

(** A [range] loop over a slice that stays readable runs to its end when
    every turn keeps the invariant; [I n] is the invariant after [n]
    turns. *)
Lemma forRange_inv {A B} (k : mem.arrayKind A) s (body : B -> A -> mem.M B)
    (xs : list A) (I : nat -> B -> mem.heap -> Prop) :
  (forall n acc h, I n acc h -> mem.readSlice k h s = Some xs) ->
  (forall n x acc h,
     xs !! n = Some x -> I n acc h ->
     exists acc' h', body acc x h = Some (acc', h') /\ I (S n) acc' h') ->
  forall acc h,
    I 0 acc h ->
    exists acc' h',
      mem.forRange k s body acc h = Some (acc', h') /\ I (length xs) acc' h'.
Proof.
  intros Hreadable Hstep acc h H0.
  unfold mem.forRange.
  rewrite <- (readSlice_length _ _ _ _ (Hreadable _ _ _ H0)).
  assert (forall m n acc h,
            n + m = length xs -> I n acc h ->
            exists acc' h',
              mem.foldM (fun acc i => mem.bind (mem.index k s i)
                                        (fun x => body acc x))
                (seq n m) acc h = Some (acc', h')
              /\ I (length xs) acc' h') as Hloop.
  { clear acc h H0. induction m as [|m IH]; intros n acc h Hnm Hn.
    - exists acc, h. split; [done|]. by replace (length xs) with n by lia.
    - destruct (lookup_lt_is_Some_2 xs n) as [x Hx]; [lia|].
      destruct (Hstep n x acc h Hx Hn) as (acc1 & h1 & Hbody & Hn1).
      destruct (IH (S n) acc1 h1) as (acc2 & h2 & Hrest & Hend); [lia|done|].
      exists acc2, h2. split; [|done].
      simpl. unfold mem.bind at 1. unfold mem.bind at 1.
      rewrite (index_read _ _ _ _ _ _ (Hreadable _ _ _ Hn) Hx).
      by rewrite Hbody. }
  by apply (Hloop (length xs) 0 acc h).
Qed.

Lemma survivingPaths_snoc blacklist host ps n p :
  ps !! n = Some p ->
  brownfield.survivingPaths IsBlacklisted blacklist host (take (S n) ps)
  = brownfield.survivingPaths IsBlacklisted blacklist host (take n ps)
    ++ (if brownfield.pathBlacklisted IsBlacklisted blacklist host p
        then [] else [p]).
Proof.
  intros Hp. unfold brownfield.survivingPaths.
  rewrite (take_S_r _ _ _ Hp), List.filter_app. simpl.
  by destruct (brownfield.pathBlacklisted _ _ _ _).
Qed.

(** The inner loop, started on the fresh HTTP section [newHTTP] of the rule
    under construction: it leaves there the surviving paths of the slice it
    ranges over, and touches no cell of the heap [hb] the rule was begun
    in. *)
Lemma prunePaths_mem hb h newHTTP sp ps host blacklist :
  hb ⊆ h ->
  hb !! newHTTP = None ->
  h !! newHTTP = Some (mem.HTTPValue {| mem.Paths := mem.emptySlice |}) ->
  mem.readSlice mem.pathArrays hb sp = Some ps ->
  exists h' sl,
    mem.forRange mem.pathArrays sp
      (mem.prunePath growcap IsBlacklisted host blacklist newHTTP) tt h
    = Some (tt, h')
    /\ hb ⊆ h'
    /\ h' !! newHTTP = Some (mem.HTTPValue {| mem.Paths := sl |})
    /\ mem.isNil sl = false
    /\ mem.freshSlice hb sl
    /\ mem.readSlice mem.pathArrays h' sl
       = Some (brownfield.survivingPaths IsBlacklisted blacklist host ps).
Proof.
  intros Hsub Hfresh Hnew Hps.
  pose (I := fun (n : nat) (_ : unit) (h : mem.heap) =>
    hb ⊆ h
    /\ exists sl,
         h !! newHTTP = Some (mem.HTTPValue {| mem.Paths := sl |})
         /\ mem.isNil sl = false
         /\ mem.freshSlice hb sl
         /\ mem.readSlice mem.pathArrays h sl
            = Some (brownfield.survivingPaths IsBlacklisted blacklist host
                      (take n ps))).
  destruct (forRange_inv mem.pathArrays sp
              (mem.prunePath growcap IsBlacklisted host blacklist newHTTP)
              ps I) with (acc := tt) (h := h)
    as ([] & h' & Hrun & Hsub' & sl & Hnew' & Hnil & Hfr & Hread).
  - intros n [] h1 [Hsub1 _]. by apply (readSlice_mono _ hb).
  - intros n p [] h1 Hp (Hsub1 & sl & Hnew1 & Hnil & Hfr & Hread).
    unfold I, mem.prunePath.
    fold (brownfield.pathBlacklisted IsBlacklisted blacklist host p).
    rewrite (survivingPaths_snoc _ _ _ _ _ Hp).
    destruct (brownfield.pathBlacklisted IsBlacklisted blacklist host p).
    + exists tt, h1. split; [done|]. split; [done|].
      exists sl. by rewrite app_nil_r.
    + destruct (append_spec mem.pathArrays h1 sl p _ pathArrays_lawful Hread)
        as (sl' & h2 & l & zs & Happ & Hdata & -> & Hread' & Hwhere).
      assert (l <> newHTTP) as Hne.
      { intros ->. destruct Hwhere as [[_ [ys Hl]]|Hl]; simpl in Hl; congruence. }
      assert (hb !! l = None) as Hl.
      { destruct Hwhere as [[Hd _]|Hl].
        - unfold mem.freshSlice in Hfr. by rewrite Hd in Hfr.
        - by apply (lookup_weaken_None hb h1). }
      eexists tt, _. unfold mem.bind, mem.loadHTTP. rewrite Hnew1.
      cbn [mem.Paths]. rewrite Happ. unfold mem.store.
      rewrite lookup_insert_ne, Hnew1 by done.
      split; [reflexivity|]. split.
      * apply insert_subseteq_r; [done|]. by apply insert_subseteq_r.
      * exists sl'. rewrite lookup_insert_eq. split; [done|].
        split; [unfold mem.isNil; by rewrite Hdata|].
        split; [unfold mem.freshSlice; by rewrite Hdata|].
        rewrite <- Hread'. unfold mem.readSlice. rewrite Hdata.
        by rewrite (lookup_insert_ne _ newHTTP l) by done.
  - split; [done|]. exists mem.emptySlice. split; [done|].
    split; [done|]. split; [done|]. done.
  - exists h', sl. rewrite take_ge in Hread by done. done.
Qed.

Lemma readAll_after_write h l zs rules rs :
  (exists ys, h !! l = Some (mem.RuleArray ys)) \/ h !! l = None ->
  mem.readAll h rules = Some rs ->
  mem.readAll (<[l := mem.RuleArray zs]> h) rules = Some rs.
Proof.
  intros [[ys Hl]|Hl] Hrs.
  - by rewrite (readAll_insert_rules _ _ _ _ _ Hl).
  - apply (readAll_mono h); [|done]. by apply insert_subseteq.
Qed.

Lemma readRules_inv h s input :
  mem.readRules h s = Some input ->
  exists raw,
    mem.readSlice mem.ruleArrays h s = Some raw
    /\ mem.readAll h raw = Some (elems input)
    /\ is_nil input = mem.isNil s
    /\ len input = mem.slen s.
Proof.
  unfold mem.readRules.
  destruct (mem.readSlice mem.ruleArrays h s) as [raw|] eqn:Hraw; [|done].
  destruct (mem.readAll h raw) as [rs|] eqn:Hrs; [|done].
  intros [= <-]. exists raw.
  assert (mem.isNil s = true -> rs = []) as Hnil.
  { unfold mem.isNil, mem.readSlice in *. intros Hn.
    destruct (mem.data s); try done.
    destruct (_ && _); [|done]. injection Hraw as <-.
    by injection Hrs as <-. }
  pose proof (readAll_length _ _ _ Hrs) as Hlen.
  rewrite (readSlice_length _ _ _ _ Hraw) in Hlen.
  split; [done|].
  destruct (mem.isNil s); simpl.
  - rewrite (Hnil eq_refl) in *. done.
  - done.
Qed.

Lemma keepsHTTP_subseteq h h' : h ⊆ h' -> mem.keepsHTTP h h'.
Proof. intros Hsub p v Hp. by apply (lookup_weaken h). Qed.

Lemma keepsHTTP_trans h1 h2 h3 :
  mem.keepsHTTP h1 h2 -> mem.keepsHTTP h2 h3 -> mem.keepsHTTP h1 h3.
Proof. intros H12 H23 p v Hp. by apply H23, H12. Qed.

Lemma copiedOrRebuilt_keeps h0 h h' rule :
  mem.keepsHTTP h h' ->
  mem.copiedOrRebuilt h0 h rule -> mem.copiedOrRebuilt h0 h' rule.
Proof.
  intros Hkeep. unfold mem.copiedOrRebuilt.
  destruct (mem.HTTP rule) as [p|]; [|done].
  destruct (h0 !! p); [done|].
  intros (sl & Hp & Hrest). exists sl. split; [by apply Hkeep|done].
Qed.

(** Appending a rule to the slice the loop builds. *)
Lemma append_rule_mem h0 h rules acc rule r :
  h0 ⊆ h ->
  mem.freshSlice h0 rules ->
  mem.readRules h rules = Some acc ->
  mem.readRule h rule = Some r ->
  exists rules' h',
    mem.append growcap mem.ruleArrays rules rule h = Some (rules', h')
    /\ h0 ⊆ h'
    /\ mem.freshSlice h0 rules'
    /\ mem.readRules h' rules' = Some (append acc r)
    /\ mem.keepsHTTP h h'
    /\ exists raw,
         mem.readSlice mem.ruleArrays h rules = Some raw
         /\ mem.readSlice mem.ruleArrays h' rules' = Some (raw ++ [rule]).
Proof.
  intros Hsub Hfr Hacc Hr.
  destruct (readRules_inv _ _ _ Hacc) as (raw & Hraw & Hrs & _ & _).
  destruct (append_spec mem.ruleArrays h rules rule _ ruleArrays_lawful Hraw)
    as (rules' & h' & l & zs & Happ & Hdata & -> & Hread' & Hwhere).
  assert (h0 !! l = None) as Hl.
  { destruct Hwhere as [[Hd _]|Hl].
    - unfold mem.freshSlice in Hfr. by rewrite Hd in Hfr.
    - by apply (lookup_weaken_None h0 h). }
  assert ((exists ys, h !! l = Some (mem.RuleArray ys)) \/ h !! l = None)
    as Hwhere' by (destruct Hwhere as [[_ ?]|?]; [by left|by right]).
  exists rules', (<[l := mem.toCell mem.ruleArrays zs]> h).
  split; [done|]. split; [by apply insert_subseteq_r|].
  split; [unfold mem.freshSlice; by rewrite Hdata|].
  split; [|split].
  - unfold mem.readRules. rewrite Hread'. simpl.
    rewrite (readAll_app _ raw [rule] (elems acc) [r]).
    + unfold mem.isNil. by rewrite Hdata.
    + by apply readAll_after_write.
    + apply (readAll_after_write _ _ _ [rule] [r] Hwhere'). simpl. by rewrite Hr.
  - intros p v Hp. rewrite lookup_insert_ne; [done|].
    intros ->. destruct Hwhere' as [[ys Hl']|Hl']; congruence.
  - by exists raw.
Qed.

(** One turn of the outer loop does to the heap what [brownfield.pruneRule]
    does to values, leaves the cells of the initial heap alone, and adds
    to the slice at most one rule, copied or rebuilt. *)
Lemma pruneRule_mem h0 h blacklist rules acc rule r :
  h0 ⊆ h ->
  mem.freshSlice h0 rules ->
  mem.readRules h rules = Some acc ->
  mem.readRule h0 rule = Some r ->
  exists rules' h',
    mem.pruneRule growcap IsBlacklisted blacklist rules rule h
    = Some (rules', h')
    /\ h0 ⊆ h'
    /\ mem.freshSlice h0 rules'
    /\ mem.readRules h' rules'
       = Some (brownfield.pruneRule IsBlacklisted blacklist acc r)
    /\ mem.keepsHTTP h h'
    /\ exists raw raw',
         mem.readSlice mem.ruleArrays h rules = Some raw
         /\ mem.readSlice mem.ruleArrays h' rules' = Some raw'
         /\ (raw' = raw
             \/ exists new, raw' = raw ++ [new]
                            /\ mem.copiedOrRebuilt h0 h' new).
Proof.
  intros Hsub Hfr Hacc Hr.
  destruct (readRules_inv _ _ _ Hacc) as (raw & Hraw & _).
  assert (forall h', h ⊆ h' ->
            h0 ⊆ h' /\ mem.freshSlice h0 rules
            /\ mem.readRules h' rules = Some acc
            /\ mem.keepsHTTP h h'
            /\ exists raw0 raw',
                 mem.readSlice mem.ruleArrays h rules = Some raw0
                 /\ mem.readSlice mem.ruleArrays h' rules = Some raw'
                 /\ (raw' = raw0
                     \/ exists new, raw' = raw0 ++ [new]
                                    /\ mem.copiedOrRebuilt h0 h' new))
    as Hskip.
  { intros h' Hsub'. split; [by transitivity h|]. split; [done|].
    split; [by apply (readRules_mono h)|].
    split; [by apply keepsHTTP_subseteq|].
    exists raw, raw. split; [done|].
    split; [by apply (readSlice_mono _ h)|by left]. }
  unfold mem.pruneRule, brownfield.pruneRule.
  unfold mem.readRule in Hr.
  destruct (mem.HTTP rule) as [p|] eqn:Hhttp.
  2:{ injection Hr as <-. simpl. exists rules, h. split; [done|].
      by apply Hskip. }
  destruct (h0 !! p) as [[| |v|]|] eqn:Hp; try done.
  unfold mem.readPaths in Hr.
  destruct (mem.readSlice mem.pathArrays h0 (mem.Paths v)) as [ps|] eqn:Hps;
    [|done].
  injection Hr as <-. cbn [v1beta1.HTTP v1beta1.Paths v1beta1.Host].
  pose proof (lookup_weaken _ _ _ _ Hp Hsub) as Hp'.
  unfold mem.bind at 1. unfold mem.loadHTTP at 1. rewrite Hp'.
  destruct (mem.isNil (mem.Paths v)) eqn:Hnil.
  - (* nil path list *)
    destruct (IsBlacklisted _ blacklist).
    + exists rules, h. split; [done|]. by apply Hskip.
    + destruct (append_rule_mem h0 h rules acc rule
                  {| v1beta1.Host := mem.Host rule;
                     v1beta1.HTTP := Some {| v1beta1.Paths := None |} |}
                  Hsub Hfr Hacc)
        as (rules' & h' & Happ & Hsub' & Hfr' & Hread' & Hkeep
            & raw0 & Hraw0 & Hraw').
      { unfold mem.readRule, mem.readPaths. rewrite Hhttp, Hp'.
        by rewrite (readSlice_mono _ _ _ _ _ Hsub Hps), Hnil. }
      exists rules', h'. repeat (split; [done|]).
      exists raw0, (raw0 ++ [rule]). repeat (split; [done|]).
      right. exists rule. split; [done|].
      unfold mem.copiedOrRebuilt. rewrite Hhttp, Hp. by exists v.
  - (* a rule is rebuilt from the surviving paths *)
    set (newHTTP := fresh (dom h)).
    assert (h !! newHTTP = None) as Hnew by apply not_elem_of_dom, is_fresh.
    set (h1 := <[newHTTP := mem.HTTPValue {| mem.Paths := mem.emptySlice |}]> h).
    assert (h ⊆ h1) as Hsub1 by (by apply insert_subseteq).
    destruct (prunePaths_mem h h1 newHTTP (mem.Paths v) ps (mem.Host rule)
                blacklist Hsub1 Hnew)
      as (h2 & sl & Hrun & Hsub2 & Hnew2 & Hnil2 & Hfr2 & Hsl).
    { unfold h1. by rewrite lookup_insert_eq. }
    { by apply (readSlice_mono _ h0). }
    unfold mem.bind, mem.alloc. fold newHTTP. fold h1.
    unfold mem.loadHTTP at 1. rewrite (lookup_weaken _ _ _ _ Hp' Hsub1).
    rewrite Hrun. unfold mem.loadHTTP. rewrite Hnew2.
    cbn [mem.Paths].
    rewrite (prunePaths_surviving IsBlacklisted). simpl.
    rewrite <- (readSlice_length _ _ _ _ Hsl).
    unfold len. simpl.
    destruct (Nat.ltb 0 (length _)).
    + destruct (append_rule_mem h0 h2 rules acc
                  {| mem.Host := mem.Host rule; mem.HTTP := Some newHTTP |}
                  {| v1beta1.Host := mem.Host rule;
                     v1beta1.HTTP :=
                       Some {| v1beta1.Paths :=
                                 Some (brownfield.survivingPaths IsBlacklisted
                                         blacklist (mem.Host rule) ps) |} |})
        as (rules' & h' & Happ & Hsub' & Hfr' & Hread' & Hkeep
            & raw0 & Hraw0 & Hraw').
      * by transitivity h.
      * done.
      * by apply (readRules_mono h).
      * unfold mem.readRule, mem.readPaths. cbn [mem.HTTP mem.Host mem.Paths].
        rewrite Hnew2. cbn [mem.Paths]. by rewrite Hsl, Hnil2.
      * exists rules', h'. repeat (split; [done|]).
        split; [by apply (keepsHTTP_trans h h2); [apply keepsHTTP_subseteq|]|].
        rewrite (readSlice_mono _ _ _ _ _ Hsub2 Hraw) in Hraw0.
        injection Hraw0 as <-.
        exists raw, (raw ++ [{| mem.Host := mem.Host rule;
                                mem.HTTP := Some newHTTP |}]).
        repeat (split; [done|]).
        right. eexists. split; [done|].
        unfold mem.copiedOrRebuilt. cbn [mem.HTTP].
        rewrite (lookup_weaken_None h0 h newHTTP Hnew Hsub).
        exists sl. split; [by apply Hkeep|]. split; [done|].
        unfold mem.freshSlice in *. destruct (mem.data sl); try done.
        by apply (lookup_weaken_None h0 h).
    + exists rules, h2. split; [done|]. by apply Hskip.
Qed.

(** X6.  On the early ways out (no rules, or a nil or empty blacklist)
    the function hands back the very slice header of the ingress, same
    backing array, and the heap as it was: the result shares its rules
    with the ingress. *)
Lemma PruneIngressRules_returns_input h ing prohibitedTargets i :
  h !! ing = Some (mem.IngressObject i) ->
  mem.isNil (mem.Rules i) = true \/ mem.slen (mem.Rules i) = 0
  \/ brownfield.blacklist_is_empty (GetTargetBlacklist prohibitedTargets) = true ->
  mem.PruneIngressRules growcap GetTargetBlacklist IsBlacklisted ing
    prohibitedTargets h = Some (mem.Rules i, h).
Proof.
  intros Hi Hcase. unfold mem.PruneIngressRules.
  unfold mem.bind at 1. unfold mem.loadIngress at 1. rewrite Hi.
  destruct (mem.isNil (mem.Rules i) || Nat.eqb (mem.slen (mem.Rules i)) 0)
    eqn:Hempty; [done|].
  apply orb_false_iff in Hempty as [Hn Hz]. apply Nat.eqb_neq in Hz.
  destruct Hcase as [Hc|[Hc|Hc]]; [congruence|lia|]. by rewrite Hc.
Qed.

(** C6.  On a heap that holds a well-formed ingress at [ing],
    [PruneIngressRules] returns; every cell of the heap it was started in
    is in the heap it leaves, unchanged, so that the ingress read back
    afterwards, rules, hosts and paths, is the one read before; the slice
    it returns stands for the rules that [brownfield.PruneIngressRules]
    computes on values; and when rules were filtered (the input has rules
    and the derived blacklist is not empty) the backing array of that slice
    is no cell of the initial heap, and each rule in it is either a
    pathless rule of the input copied with its pointer, or a rule whose
    HTTP section and path array are no cells of the initial heap. *)
Theorem PruneIngressRules_frame h ing prohibitedTargets ingress :
  mem.readIngress h ing = Some ingress ->
  exists rules h',
    mem.PruneIngressRules growcap GetTargetBlacklist IsBlacklisted ing
      prohibitedTargets h = Some (rules, h')
    /\ h ⊆ h'
    /\ mem.readIngress h' ing = Some ingress
    /\ mem.readRules h' rules
       = Some (brownfield.PruneIngressRules GetTargetBlacklist IsBlacklisted
                 ingress prohibitedTargets)
    /\ (len (v1beta1.Rules (v1beta1.Spec ingress)) <> 0 ->
        brownfield.blacklist_is_empty (GetTargetBlacklist prohibitedTargets)
        = false ->
        mem.freshSlice h rules
        /\ exists raw,
             mem.readSlice mem.ruleArrays h' rules = Some raw
             /\ Forall (mem.copiedOrRebuilt h h') raw).
Proof.
  intros Hing.
  pose proof Hing as Hing'. unfold mem.readIngress in Hing'.
  destruct (h !! ing) as [[| | |i]|] eqn:Hi; try done.
  destruct (mem.readRules h (mem.Rules i)) as [input|] eqn:Hinput; [|done].
  destruct (readRules_inv _ _ _ Hinput) as (raw & Hraw & Hrs & Hnil & Hlen).
  set (blacklist := GetTargetBlacklist prohibitedTargets).
  set (pure := brownfield.PruneIngressRules GetTargetBlacklist IsBlacklisted
                 ingress prohibitedTargets).
  assert (v1beta1.Rules (v1beta1.Spec ingress) = input) as Hrules
    by (by injection Hing' as <-).
  rewrite Hrules.
  (* the three ways through the function, on values *)
  assert (pure = if mem.isNil (mem.Rules i) || Nat.eqb (mem.slen (mem.Rules i)) 0
                 then input
                 else if brownfield.blacklist_is_empty blacklist then input
                 else foldl (brownfield.pruneRule IsBlacklisted blacklist)
                        None (elems input)) as Hpure.
  { unfold pure, brownfield.PruneIngressRules. by rewrite Hrules, Hnil, Hlen. }
  unfold mem.PruneIngressRules. fold blacklist.
  unfold mem.bind at 1. unfold mem.loadIngress at 1. rewrite Hi.
  destruct (mem.isNil (mem.Rules i) || Nat.eqb (mem.slen (mem.Rules i)) 0)
    eqn:Hempty.
  { exists (mem.Rules i), h. rewrite Hpure. repeat (split; [done|]).
    intros Hne. apply orb_true_iff in Hempty as [Hn|Hz].
    - rewrite <- Hnil in Hn. destruct input; [done|]. by contradict Hne.
    - apply Nat.eqb_eq in Hz. lia. }
  destruct (brownfield.blacklist_is_empty blacklist) eqn:Hbl.
  { exists (mem.Rules i), h. rewrite Hpure. by repeat (split; [done|]). }
  unfold mem.bind at 1. unfold mem.loadIngress at 1. rewrite Hi.
  pose (I := fun (n : nat) (rules : mem.sliceHdr) (h' : mem.heap) =>
    h ⊆ h'
    /\ mem.freshSlice h rules
    /\ mem.readRules h' rules
       = Some (foldl (brownfield.pruneRule IsBlacklisted blacklist)
                 None (take n (elems input)))
    /\ exists out,
         mem.readSlice mem.ruleArrays h' rules = Some out
         /\ Forall (mem.copiedOrRebuilt h h') out).
  destruct (forRange_inv mem.ruleArrays (mem.Rules i)
              (mem.pruneRule growcap IsBlacklisted blacklist) raw I)
    with (acc := mem.nilSlice) (h := h)
    as (rules & h' & Hrun & Hsub & Hfr & Hres & Hout).
  - intros n rules h' [Hsub _]. by apply (readSlice_mono _ h).
  - intros n rule rules h' Hrule (Hsub & Hfr & Hacc & out & Hout & Hall).
    destruct (readAll_lookup _ _ _ _ _ Hrs Hrule) as (r & Hr & Hrn).
    destruct (pruneRule_mem h h' blacklist rules _ rule r Hsub Hfr Hacc Hr)
      as (rules' & h'' & Hstep & Hsub' & Hfr' & Hacc' & Hkeep
          & out0 & out' & Hout0 & Hout' & Hnew).
    exists rules', h''. split; [done|]. unfold I.
    split; [done|]. split; [done|].
    split; [by rewrite (take_S_r _ _ _ Hrn), foldl_app|].
    exists out'. split; [done|].
    rewrite Hout in Hout0. injection Hout0 as <-.
    assert (Forall (mem.copiedOrRebuilt h h'') out) as Hall'.
    { eapply Forall_impl; [exact Hall|].
      intros x. by apply copiedOrRebuilt_keeps. }
    destruct Hnew as [->|(new & -> & Hnew)]; [done|].
    apply Forall_app. split; [done|]. by apply Forall_cons.
  - unfold I. split; [done|]. split; [done|]. split; [done|].
    exists []. split; [done|]. constructor.
  - exists rules, h'. split; [done|]. split; [done|].
    split; [by apply (readIngress_mono h)|]. split; [|done].
    rewrite Hres, Hpure. f_equal. f_equal. apply take_ge.
    by rewrite (readAll_length _ _ _ Hrs).
Qed.

End MemFacts.

(** *** On the sample heap *)

Lemma PruneIngressRules_frame_witness :
  exists rules h',
    mem.PruneIngressRules fixtures.growcap brownfield.GetTargetBlacklist
      brownfield.IsBlacklisted 1%positive fixtures.prohibitedTargets
      fixtures.heap = Some (rules, h')
    /\ fixtures.heap ⊆ h'
    /\ mem.readIngress h' 1%positive = Some fixtures.ingress
    /\ mem.readRules h' rules
       = Some (brownfield.PruneIngressRules brownfield.GetTargetBlacklist
                 brownfield.IsBlacklisted fixtures.ingress
                 fixtures.prohibitedTargets)
    /\ (len (v1beta1.Rules (v1beta1.Spec fixtures.ingress)) <> 0 ->
        brownfield.blacklist_is_empty
          (brownfield.GetTargetBlacklist fixtures.prohibitedTargets) = false ->
        mem.freshSlice fixtures.heap rules
        /\ exists raw,
             mem.readSlice mem.ruleArrays h' rules = Some raw
             /\ Forall (mem.copiedOrRebuilt fixtures.heap h') raw).
Proof.
  apply (PruneIngressRules_frame fixtures.growcap brownfield.GetTargetBlacklist
           brownfield.IsBlacklisted fixtures.heap 1%positive
           fixtures.prohibitedTargets fixtures.ingress).
  vm_compute. reflexivity.
Defined.

(** The run on the sample heap, spelled out: the slice handed back has its
    two rules in a new array at 9; the second rule points to a new HTTP
    section at 7, whose one path is in a new array at 8. *)
Example PruneIngressRules_sample_heap :
  exists h',
    mem.PruneIngressRules fixtures.growcap brownfield.GetTargetBlacklist
      brownfield.IsBlacklisted 1%positive fixtures.prohibitedTargets
      fixtures.heap
    = Some ({| mem.data := mem.ArrayAt 9%positive; mem.slen := 2;
               mem.scap := 2 |}, h')
    /\ h' !! 9%positive
       = Some (mem.RuleArray
                 [ {| mem.Host := "bar.com"; mem.HTTP := Some 3%positive |};
                   {| mem.Host := "baz.com"; mem.HTTP := Some 7%positive |} ])
    /\ h' !! 7%positive
       = Some (mem.HTTPValue
                 {| mem.Paths := {| mem.data := mem.ArrayAt 8%positive;
                                    mem.slen := 1; mem.scap := 1 |} |})
    /\ h' !! 8%positive = Some (mem.PathArray [fixtures.path "/b"]).
Proof. eexists. split; [vm_compute; reflexivity|]. by vm_compute. Qed.

(** ** More on the pruning of ingress rules *)

Section PruneMore.

Variable GetTargetBlacklist :
  list ptv1.AzureIngressProhibitedTarget -> brownfield.TargetBlacklist.
Variable IsBlacklisted :
  brownfield.Target -> brownfield.TargetBlacklist -> bool.

Local Abbreviation pruneRule := (brownfield.pruneRule IsBlacklisted).
Local Abbreviation survivingPaths := (brownfield.survivingPaths IsBlacklisted).
Local Abbreviation keptRule := (brownfield.keptRule IsBlacklisted).
Local Abbreviation hostBlacklisted := (brownfield.hostBlacklisted IsBlacklisted).
Local Abbreviation pathBlacklisted := (brownfield.pathBlacklisted IsBlacklisted).
Local Abbreviation PruneIngressRules :=
  (brownfield.PruneIngressRules GetTargetBlacklist IsBlacklisted).

(** The slice one turn of the loop leaves, nil or not. *)
Lemma pruneRule_value blacklist rules rule :
  pruneRule blacklist rules rule
  = match keptRule blacklist rule with
    | None => rules
    | Some kept => Some (elems rules ++ [kept])
    end.
Proof.
  unfold brownfield.pruneRule, brownfield.keptRule, brownfield.hostBlacklisted.
  destruct (v1beta1.HTTP rule) as [http|]; [|done].
  destruct (v1beta1.Paths http) as [paths|].
  - rewrite prunePaths_surviving. simpl.
    by destruct (survivingPaths blacklist (v1beta1.Host rule) paths).
  - by destruct (IsBlacklisted _ blacklist).
Qed.

Lemma pruneLoop_value blacklist input : forall rules,
  foldl (pruneRule blacklist) rules input
  = match omap (keptRule blacklist) input with
    | [] => rules
    | kept => Some (elems rules ++ kept)
    end.
Proof.
  induction input as [|rule input IH]; intros rules; simpl; [done|].
  fold_omap. rewrite IH, pruneRule_value.
  destruct (keptRule blacklist rule) as [k|]; simpl; [|done].
  destruct (omap (keptRule blacklist) input); simpl; [done|].
  by rewrite <- app_assoc.
Qed.

(** The three ways through the function, with the loop in closed form. *)
Lemma PruneIngressRules_value ing prohibitedTargets :
  PruneIngressRules ing prohibitedTargets
  = let input := v1beta1.Rules (v1beta1.Spec ing) in
    if is_nil input || Nat.eqb (len input) 0 then input
    else if brownfield.blacklist_is_empty (GetTargetBlacklist prohibitedTargets)
    then input
    else match omap (keptRule (GetTargetBlacklist prohibitedTargets))
                 (elems input) with
         | [] => None
         | kept => Some kept
         end.
Proof.
  unfold brownfield.PruneIngressRules. simpl.
  destruct (_ || _); [done|].
  destruct (brownfield.blacklist_is_empty _); [done|].
  by rewrite pruneLoop_value.
Qed.

Lemma elems_nil_or_kept {A} (l : list A) :
  elems (match l with [] => None | k :: ks => Some (k :: ks) end) = l.
Proof. by destruct l. Qed.

Lemma survivingPaths_idem blacklist host paths :
  survivingPaths blacklist host (survivingPaths blacklist host paths)
  = survivingPaths blacklist host paths.
Proof.
  unfold brownfield.survivingPaths.
  induction paths as [|p paths IH]; simpl; [done|].
  destruct (negb (pathBlacklisted blacklist host p)) eqn:Hp; simpl; [|done].
  by rewrite Hp, IH.
Qed.

(** What is kept once is kept again, as it is. *)
Lemma keptRule_idem blacklist rule kept :
  keptRule blacklist rule = Some kept -> keptRule blacklist kept = Some kept.
Proof.
  unfold brownfield.keptRule.
  destruct (v1beta1.HTTP rule) as [http|] eqn:Hhttp; [|done].
  destruct (v1beta1.Paths http) as [paths|] eqn:Hpaths.
  - destruct (survivingPaths blacklist (v1beta1.Host rule) paths)
      as [|p ps] eqn:Hs; [done|].
    intros [= <-]. cbn [v1beta1.HTTP v1beta1.Paths v1beta1.Host].
    by rewrite <- Hs, survivingPaths_idem, Hs.
  - destruct (brownfield.hostBlacklisted _ _ _) eqn:Hb; [done|].
    intros [= <-]. by rewrite Hhttp, Hpaths, Hb.
Qed.

Lemma omap_keptRule_idem blacklist (input : list v1beta1.IngressRule) :
  omap (keptRule blacklist) (omap (keptRule blacklist) input)
  = omap (keptRule blacklist) input.
Proof.
  induction input as [|rule input IH]; simpl; [done|]. fold_omap.
  destruct (keptRule blacklist rule) as [k|] eqn:Hk; simpl; [|done].
  fold_omap. by rewrite (keptRule_idem _ _ _ Hk), IH.
Qed.

(** X1.  Pruning is idempotent: on an ingress that carries the rules
    [PruneIngressRules] handed back, the same prohibited targets prune
    nothing more, and the slice comes back as it is, nil or not. *)
Theorem PruneIngressRules_idempotent ing prohibitedTargets :
  PruneIngressRules
    {| v1beta1.Namespace := v1beta1.Namespace ing;
       v1beta1.Name := v1beta1.Name ing;
       v1beta1.Spec :=
         {| v1beta1.Rules := PruneIngressRules ing prohibitedTargets |} |}
    prohibitedTargets
  = PruneIngressRules ing prohibitedTargets.
Proof.
  rewrite (PruneIngressRules_value ing).
  rewrite PruneIngressRules_value. cbn [v1beta1.Spec v1beta1.Rules].
  cbv zeta.
  destruct (v1beta1.Rules (v1beta1.Spec ing)) as [[|rule input]|] eqn:Hin;
    try done.
  cbn [is_nil len elems length Nat.eqb orb].
  destruct (brownfield.blacklist_is_empty _) eqn:Hbl; [done|].
  destruct (omap _ (rule :: input)) as [|k ks] eqn:Hk; [done|].
  cbn [is_nil len elems length Nat.eqb orb].
  by rewrite <- Hk, omap_keptRule_idem, Hk.
Qed.

(** A kept rule is clear of the blacklist. *)
Lemma keptRule_clear blacklist rule kept :
  keptRule blacklist rule = Some kept ->
  exists http,
    v1beta1.HTTP kept = Some http
    /\ match v1beta1.Paths http with
       | None => hostBlacklisted blacklist (v1beta1.Host kept) = false
       | Some paths =>
           paths <> []
           /\ forall p, p ∈ paths ->
                pathBlacklisted blacklist (v1beta1.Host kept) p = false
       end.
Proof.
  unfold brownfield.keptRule.
  destruct (v1beta1.HTTP rule) as [http|] eqn:Hhttp; [|done].
  destruct (v1beta1.Paths http) as [paths|] eqn:Hpaths.
  - destruct (survivingPaths blacklist (v1beta1.Host rule) paths)
      as [|p ps] eqn:Hs; [done|].
    intros [= <-]. eexists. split; [done|]. simpl. split; [done|].
    intros q Hq. rewrite <- Hs in Hq.
    apply list_elem_of_In, filter_In in Hq as [_ Hq].
    by apply negb_true_iff in Hq.
  - destruct (brownfield.hostBlacklisted _ _ _) eqn:Hb; [done|].
    intros [= <-]. exists http. split; [done|]. by rewrite Hpaths.
Qed.

(** X2.  Nothing blacklisted is left: when the derived blacklist is not
    empty, every rule handed back has an HTTP section, and either a nil path
    list and a host that is not blacklisted, or a non-empty path list none
    of whose (host, path) targets is blacklisted. *)
Theorem PruneIngressRules_clear ing prohibitedTargets rule :
  brownfield.blacklist_is_empty (GetTargetBlacklist prohibitedTargets) = false ->
  rule ∈ elems (PruneIngressRules ing prohibitedTargets) ->
  exists http,
    v1beta1.HTTP rule = Some http
    /\ match v1beta1.Paths http with
       | None =>
           hostBlacklisted (GetTargetBlacklist prohibitedTargets)
             (v1beta1.Host rule) = false
       | Some paths =>
           paths <> []
           /\ forall p, p ∈ paths ->
                pathBlacklisted (GetTargetBlacklist prohibitedTargets)
                  (v1beta1.Host rule) p = false
       end.
Proof.
  intros Hbl. rewrite PruneIngressRules_value, Hbl. cbv zeta.
  destruct (v1beta1.Rules (v1beta1.Spec ing)) as [[|r input]|];
    cbn [is_nil len elems length Nat.eqb orb];
    try (by intros ?%elem_of_nil).
  rewrite elems_nil_or_kept. intros Hin.
  apply list_elem_of_omap in Hin as (orig & _ & Hk).
  by eapply keptRule_clear.
Qed.

Lemma survivingPaths_sublist blacklist host paths :
  survivingPaths blacklist host paths `sublist_of` paths.
Proof.
  unfold brownfield.survivingPaths.
  induction paths as [|p paths IH]; simpl; [constructor|].
  destruct (negb _); by constructor.
Qed.

Lemma keptRule_shrinks blacklist rule kept :
  keptRule blacklist rule = Some kept ->
  v1beta1.Host kept = v1beta1.Host rule
  /\ brownfield.rulePaths kept `sublist_of` brownfield.rulePaths rule.
Proof.
  unfold brownfield.keptRule, brownfield.rulePaths.
  destruct (v1beta1.HTTP rule) as [http|] eqn:Hhttp; [|done].
  destruct (v1beta1.Paths http) as [paths|] eqn:Hpaths.
  - destruct (survivingPaths blacklist (v1beta1.Host rule) paths)
      as [|p ps] eqn:Hs; [done|].
    intros [= <-]. simpl. split; [done|]. rewrite <- Hs.
    apply survivingPaths_sublist.
  - destruct (brownfield.hostBlacklisted _ _ _); [done|].
    intros [= <-]. rewrite Hhttp, Hpaths. split; [done|]. constructor.
Qed.

Lemma omap_keptRule_hosts blacklist (input : list v1beta1.IngressRule) :
  (v1beta1.Host <$> omap (keptRule blacklist) input)
    `sublist_of` (v1beta1.Host <$> input).
Proof.
  induction input as [|rule input IH]; simpl; [constructor|]. fold_omap.
  destruct (keptRule blacklist rule) as [k|] eqn:Hk; simpl.
  - destruct (keptRule_shrinks _ _ _ Hk) as [-> _]. by constructor.
  - by constructor.
Qed.

(** X3.  Pruning only takes away: the hosts of the rules handed back are,
    in order, a sublist of the hosts of the input rules, and every rule
    handed back stems from an input rule of the same host whose paths
    contain its paths as a sublist.  No rule and no path is added, moved or
    renamed. *)
Theorem PruneIngressRules_shrinks ing prohibitedTargets :
  (v1beta1.Host <$> elems (PruneIngressRules ing prohibitedTargets))
    `sublist_of` (v1beta1.Host <$> elems (v1beta1.Rules (v1beta1.Spec ing)))
  /\ forall kept,
       kept ∈ elems (PruneIngressRules ing prohibitedTargets) ->
       exists rule,
         rule ∈ elems (v1beta1.Rules (v1beta1.Spec ing))
         /\ v1beta1.Host kept = v1beta1.Host rule
         /\ brownfield.rulePaths kept `sublist_of` brownfield.rulePaths rule.
Proof.
  rewrite PruneIngressRules_value. cbv zeta.
  set (input := v1beta1.Rules (v1beta1.Spec ing)).
  set (blacklist := GetTargetBlacklist prohibitedTargets).
  assert (forall kept, kept ∈ elems input ->
            exists rule, rule ∈ elems input
              /\ v1beta1.Host kept = v1beta1.Host rule
              /\ brownfield.rulePaths kept
                   `sublist_of` brownfield.rulePaths rule) as Hsame
    by (intros kept Hin; by exists kept).
  destruct (_ || _); [done|].
  destruct (brownfield.blacklist_is_empty blacklist); [done|].
  rewrite elems_nil_or_kept.
  split; [apply omap_keptRule_hosts|].
  intros kept Hin. apply list_elem_of_omap in Hin as (rule & Hin & Hk).
  exists rule. split; [done|]. by apply (keptRule_shrinks blacklist).
Qed.

Lemma omap_keptRule_id blacklist (input : list v1beta1.IngressRule) :
  (forall rule, rule ∈ input -> keptRule blacklist rule = Some rule) ->
  omap (keptRule blacklist) input = input.
Proof.
  induction input as [|rule input IH]; intros Hall; simpl; [done|].
  fold_omap. rewrite (Hall rule) by apply list_elem_of_here.
  rewrite IH; [done|]. intros r Hr. by apply Hall, list_elem_of_further.
Qed.

Lemma survivingPaths_all_clear blacklist host paths :
  (forall p, p ∈ paths -> pathBlacklisted blacklist host p = false) ->
  survivingPaths blacklist host paths = paths.
Proof.
  unfold brownfield.survivingPaths.
  induction paths as [|p paths IH]; intros Hclear; simpl; [done|].
  rewrite (Hclear p) by apply list_elem_of_here. simpl.
  rewrite IH; [done|]. intros q Hq. by apply Hclear, list_elem_of_further.
Qed.

(** X4.  A blacklist that does not meet the ingress leaves it alone: when
    every rule has an HTTP section, and either a nil path list and a host
    that is not blacklisted or a non-empty path list with no blacklisted
    path, the rules handed back are the rules of the ingress. *)
Theorem PruneIngressRules_untouched ing prohibitedTargets :
  (forall rule,
     rule ∈ elems (v1beta1.Rules (v1beta1.Spec ing)) ->
     exists http,
       v1beta1.HTTP rule = Some http
       /\ match v1beta1.Paths http with
          | None =>
              hostBlacklisted (GetTargetBlacklist prohibitedTargets)
                (v1beta1.Host rule) = false
          | Some paths =>
              paths <> []
              /\ forall p, p ∈ paths ->
                   pathBlacklisted (GetTargetBlacklist prohibitedTargets)
                     (v1beta1.Host rule) p = false
          end) ->
  PruneIngressRules ing prohibitedTargets = v1beta1.Rules (v1beta1.Spec ing).
Proof.
  intros Hall. rewrite PruneIngressRules_value. cbv zeta.
  destruct (v1beta1.Rules (v1beta1.Spec ing)) as [[|r input]|]; try done.
  cbn [is_nil len elems length Nat.eqb orb].
  destruct (brownfield.blacklist_is_empty _); [done|].
  rewrite omap_keptRule_id; [done|].
  intros rule Hin. destruct (Hall rule Hin) as (http & Hhttp & Hclear).
  unfold brownfield.keptRule. rewrite Hhttp.
  destruct rule as [host http']. simpl in *. subst http'.
  destruct http as [[paths|]]; simpl in *.
  - destruct Hclear as [Hne Hclear].
    rewrite (survivingPaths_all_clear _ _ _ Hclear).
    by destruct paths.
  - by rewrite Hclear.
Qed.

(** X5.  When rules are filtered (the ingress has rules and the derived
    blacklist is not empty) the slice handed back is nil exactly when no
    rule is kept, and it is never an empty slice that is not nil. *)
Theorem PruneIngressRules_nil_when_nothing_kept ing prohibitedTargets :
  len (v1beta1.Rules (v1beta1.Spec ing)) <> 0 ->
  brownfield.blacklist_is_empty (GetTargetBlacklist prohibitedTargets) = false ->
  (PruneIngressRules ing prohibitedTargets = None
   <-> forall rule,
         rule ∈ elems (v1beta1.Rules (v1beta1.Spec ing)) ->
         keptRule (GetTargetBlacklist prohibitedTargets) rule = None)
  /\ PruneIngressRules ing prohibitedTargets <> Some [].
Proof.
  intros Hlen Hbl. rewrite PruneIngressRules_value, Hbl. cbv zeta.
  destruct (v1beta1.Rules (v1beta1.Spec ing)) as [[|r input]|]; try done.
  cbn [is_nil len elems length Nat.eqb orb].
  set (l := r :: input). clearbody l.
  split; [|by destruct (omap _ l)].
  split.
  - intros Hnil rule Hin.
    destruct (keptRule _ rule) as [k|] eqn:Hk; [|done].
    assert (k ∈ omap (keptRule (GetTargetBlacklist prohibitedTargets)) l) as Hk'
      by (apply list_elem_of_omap; by exists rule).
    destruct (omap _ l); [by apply elem_of_nil in Hk'|done].
  - intros Hnone.
    destruct (omap _ l) as [|k ks] eqn:Hk; [done|].
    assert (k ∈ omap (keptRule (GetTargetBlacklist prohibitedTargets)) l) as Hk'
      by (rewrite Hk; apply list_elem_of_here).
    apply list_elem_of_omap in Hk' as (rule & Hin & Hkept).
    by rewrite (Hnone rule Hin) in Hkept.
Qed.

End PruneMore.

(** *** On the sample ingresses *)

Lemma PruneIngressRules_clear_witness :
  exists http,
    v1beta1.HTTP
      {| v1beta1.Host := "baz.com";
         v1beta1.HTTP := Some {| v1beta1.Paths := Some [fixtures.path "/b"] |} |}
    = Some http
    /\ match v1beta1.Paths http with
       | None =>
           brownfield.hostBlacklisted brownfield.IsBlacklisted
             (brownfield.GetTargetBlacklist fixtures.prohibitedTargets)
             "baz.com" = false
       | Some paths =>
           paths <> []
           /\ forall p, p ∈ paths ->
                brownfield.pathBlacklisted brownfield.IsBlacklisted
                  (brownfield.GetTargetBlacklist fixtures.prohibitedTargets)
                  "baz.com" p = false
       end.
Proof.
  apply (PruneIngressRules_clear brownfield.GetTargetBlacklist
           brownfield.IsBlacklisted fixtures.ingress fixtures.prohibitedTargets
           {| v1beta1.Host := "baz.com";
              v1beta1.HTTP :=
                Some {| v1beta1.Paths := Some [fixtures.path "/b"] |} |}).
  - reflexivity.
  - vm_compute. apply list_elem_of_further, list_elem_of_here.
Defined.

Lemma PruneIngressRules_untouched_witness :
  brownfield.PruneIngressRules brownfield.GetTargetBlacklist
    brownfield.IsBlacklisted fixtures.ingressWellFormed fixtures.otherTargets
  = v1beta1.Rules (v1beta1.Spec fixtures.ingressWellFormed).
Proof.
  apply (PruneIngressRules_untouched brownfield.GetTargetBlacklist
           brownfield.IsBlacklisted fixtures.ingressWellFormed
           fixtures.otherTargets).
  intros rule Hin. simpl in Hin.
  apply elem_of_cons in Hin as [->|Hin];
    [|apply elem_of_cons in Hin as [->|Hin]; [|by apply elem_of_nil in Hin]].
  - eexists. split; [reflexivity|]. reflexivity.
  - eexists. split; [reflexivity|]. simpl. split; [discriminate|].
    intros p Hp.
    apply elem_of_cons in Hp as [->|Hp];
      [|apply elem_of_cons in Hp as [->|Hp]; [|by apply elem_of_nil in Hp]];
      reflexivity.
Defined.

Lemma PruneIngressRules_nil_when_nothing_kept_witness :
  (brownfield.PruneIngressRules brownfield.GetTargetBlacklist
     brownfield.IsBlacklisted fixtures.ingressEmptyPaths
     fixtures.prohibitedTargets = None
   <-> forall rule,
         rule ∈ elems (v1beta1.Rules (v1beta1.Spec fixtures.ingressEmptyPaths)) ->
         brownfield.keptRule brownfield.IsBlacklisted
           (brownfield.GetTargetBlacklist fixtures.prohibitedTargets) rule
         = None)
  /\ brownfield.PruneIngressRules brownfield.GetTargetBlacklist
       brownfield.IsBlacklisted fixtures.ingressEmptyPaths
       fixtures.prohibitedTargets <> Some [].
Proof.
  apply (PruneIngressRules_nil_when_nothing_kept brownfield.GetTargetBlacklist
           brownfield.IsBlacklisted fixtures.ingressEmptyPaths
           fixtures.prohibitedTargets).
  - vm_compute. discriminate.
  - reflexivity.
Defined.

Lemma PruneIngressRules_returns_input_witness :
  mem.PruneIngressRules fixtures.growcap brownfield.GetTargetBlacklist
    brownfield.IsBlacklisted 1%positive [] fixtures.heap
  = Some ({| mem.data := mem.ArrayAt 2%positive; mem.slen := 3; mem.scap := 3 |},
          fixtures.heap).
Proof.
  apply (PruneIngressRules_returns_input fixtures.growcap
           brownfield.GetTargetBlacklist brownfield.IsBlacklisted
           fixtures.heap 1%positive []
           {| mem.Namespace := "default"; mem.Name := "web";
              mem.Rules := {| mem.data := mem.ArrayAt 2%positive;
                              mem.slen := 3; mem.scap := 3 |} |}).
  - vm_compute. reflexivity.
  - right. right. reflexivity.
Defined.

(** ** More on listener identifiers *)

(** X7.  The protocol enters the identifier only through the exact
    comparison with [HTTPS], and only when there is no override: every
    other protocol, whatever its spelling, gets the listener of [HTTP];
    with an override the protocol makes no difference; and without one
    [HTTP] and [HTTPS] get two listeners for the same rule. *)
Theorem generateListenerID_protocol rule :
  (forall protocol,
     protocol <> appgw.HTTPS ->
     appgw.generateListenerID rule protocol None
     = appgw.generateListenerID rule appgw.HTTP None)
  /\ (forall protocol1 protocol2 port,
        appgw.generateListenerID rule protocol1 (Some port)
        = appgw.generateListenerID rule protocol2 (Some port))
  /\ appgw.generateListenerID rule appgw.HTTP None
     <> appgw.generateListenerID rule appgw.HTTPS None.
Proof.
  unfold appgw.generateListenerID. repeat split.
  - intros protocol Hne.
    by destruct (String.eqb_spec protocol appgw.HTTPS).
  - discriminate.
Qed.

Lemma generateListenerID_protocol_witness :
  appgw.generateListenerID fixtures.ruleNilPaths "https" None
  = appgw.generateListenerID fixtures.ruleNilPaths appgw.HTTP None.
Proof.
  apply (proj1 (generateListenerID_protocol fixtures.ruleNilPaths)).
  discriminate.
Defined.

(** ** More on port resolution *)

Section ResolveMore.

Context {ApplicationGatewayPropertiesFormat EventRecorder : Type}.
Variable serviceKey : appgw.serviceIdentifier -> string.

Local Abbreviation builder :=
  (@appgw.appGwConfigBuilder ApplicationGatewayPropertiesFormat EventRecorder).

(** X8.  The resolved set grows with the subsets and does not depend on
    their order or repetition: when every subset of one Endpoints object is
    a subset of another, every port resolved against the first is resolved
    against the second; so two objects with the same subsets, in any order
    and any number of times, resolve a name alike. *)
Theorem resolvePortName_monotone (c c' : builder) portName backendID backendID'
    endpoints endpoints' :
  appgw.GetEndpointsByService (appgw.k8sContext c)
    (serviceKey (appgw.backend_serviceIdentifier backendID))
  = (Some endpoints, None) ->
  appgw.GetEndpointsByService (appgw.k8sContext c')
    (serviceKey (appgw.backend_serviceIdentifier backendID'))
  = (Some endpoints', None) ->
  ((forall subset, subset ∈ v1.Subsets endpoints ->
                   subset ∈ v1.Subsets endpoints') ->
   appgw.resolvePortName serviceKey c portName backendID
   ⊆ appgw.resolvePortName serviceKey c' portName backendID')
  /\ ((forall subset, subset ∈ v1.Subsets endpoints <->
                      subset ∈ v1.Subsets endpoints') ->
      appgw.resolvePortName serviceKey c portName backendID
      = appgw.resolvePortName serviceKey c' portName backendID').
Proof.
  intros Hc Hc'. unfold appgw.resolvePortName. rewrite Hc, Hc'.
  assert (forall e e' : v1.Endpoints,
            (forall subset, subset ∈ v1.Subsets e -> subset ∈ v1.Subsets e') ->
            forall port,
              port ∈ foldl (fun resolved subset =>
                              foldl (fun resolved epPort =>
                                       if String.eqb (v1.Name epPort) portName
                                       then {[ v1.Port epPort ]} ∪ resolved
                                       else resolved)
                                    resolved (v1.Ports subset))
                           (∅ : gset Z) (v1.Subsets e) ->
              port ∈ foldl (fun resolved subset =>
                              foldl (fun resolved epPort =>
                                       if String.eqb (v1.Name epPort) portName
                                       then {[ v1.Port epPort ]} ∪ resolved
                                       else resolved)
                                    resolved (v1.Ports subset))
                           (∅ : gset Z) (v1.Subsets e')) as Hmono.
  { intros e e' Hsub port Hin.
    apply collect_subsets in Hin as [Hin|(s & ep & Hs & Hrest)].
    - by apply not_elem_of_empty in Hin.
    - apply collect_subsets. right. exists s, ep. split; [by apply Hsub|done]. }
  split.
  - intros Hsub port. by apply Hmono.
  - intros Hsame. apply set_eq. intros port. split; apply Hmono;
      intros subset; by apply Hsame.
Qed.

(** X9.  What a backend resolves to is settled by the namespace of its
    ingress and the name of its service: the identifier made for an ingress
    backend and the one made for a virtual-service destination resolve a
    port name alike when the namespaces agree and the destination host is
    the service name, whatever rule, path or virtual service they stem
    from. *)
Theorem resolvers_agree_on_generated (c : builder) portName
    ingress rule path backend virtualService destination :
  v1beta1.Namespace ingress = v1alpha3.Namespace virtualService ->
  v1beta1.ServiceName backend = v1alpha3.Host destination ->
  appgw.resolvePortName serviceKey c portName
    (appgw.generateBackendID ingress rule path backend)
  = appgw.resolveIstioPortName serviceKey c portName
      (appgw.generateIstioDestinationID virtualService destination).
Proof.
  intros Hns Hname.
  unfold appgw.resolvePortName, appgw.resolveIstioPortName,
    appgw.generateBackendID, appgw.generateIstioDestinationID.
  cbn [appgw.backend_serviceIdentifier appgw.destination_serviceIdentifier].
  by rewrite Hns, Hname.
Qed.

End ResolveMore.

Lemma resolvePortName_monotone_witness :
  appgw.resolvePortName fixtures.serviceKey fixtures.builder "http"
    fixtures.backendID
  ⊆ appgw.resolvePortName fixtures.serviceKey fixtures.builderMore "http"
      fixtures.backendID.
Proof.
  apply (proj1 (resolvePortName_monotone fixtures.serviceKey fixtures.builder
                  fixtures.builderMore "http" fixtures.backendID
                  fixtures.backendID fixtures.endpoints fixtures.endpointsMore
                  eq_refl eq_refl)).
  intros subset Hin. simpl in Hin.
  apply elem_of_cons in Hin as [->|Hin]; [|by apply elem_of_nil in Hin].
  simpl. apply list_elem_of_further, list_elem_of_here.
Defined.

Lemma resolvers_agree_on_generated_witness :
  appgw.resolvePortName fixtures.serviceKey fixtures.builder "http"
    (appgw.generateBackendID fixtures.ingress fixtures.ruleNoHTTP
       (fixtures.path "/elsewhere") (fixtures.backend "web"))
  = appgw.resolveIstioPortName fixtures.serviceKey fixtures.builder "http"
      (appgw.generateIstioDestinationID
         {| v1alpha3.Namespace := "default"; v1alpha3.Name := "vs" |}
         {| v1alpha3.Host := "web" |}).
Proof.
  apply (resolvers_agree_on_generated fixtures.serviceKey fixtures.builder
           "http" fixtures.ingress fixtures.ruleNoHTTP
           (fixtures.path "/elsewhere") (fixtures.backend "web")
           {| v1alpha3.Namespace := "default"; v1alpha3.Name := "vs" |}
           {| v1alpha3.Host := "web" |}); reflexivity.
Defined.

(** ** More on the validation harness *)

Section ValidationMore.

Context {ApplicationGatewayPropertiesFormat EnvVariables Service
         EventRecorder : Type}.

Local Abbreviation builder :=
  (@appgw.appGwConfigBuilder ApplicationGatewayPropertiesFormat EventRecorder).
Local Abbreviation context :=
  (@appgw.ConfigBuilderContext EnvVariables Service).
Local Abbreviation valFunc :=
  (@appgw.valFunc ApplicationGatewayPropertiesFormat EnvVariables Service
     EventRecorder).

(** X10.  Running two lists of validators one after the other is running
    their concatenation: the second list is run on the builder the first
    left, and only when the first reported no error. *)
Theorem runValidationFunctions_concat (cbCtx : context) (c : builder)
    (fns1 fns2 : list valFunc) :
  appgw.runValidationFunctions c cbCtx (fns1 ++ fns2)
  = match appgw.runValidationFunctions c cbCtx fns1 with
    | (c', None) => appgw.runValidationFunctions c' cbCtx fns2
    | (c', Some err) => (c', Some err)
    end.
Proof.
  revert c. induction fns1 as [|fn fns1 IH]; intros c; simpl; [done|].
  destruct (appgw.callValidator c cbCtx fn) as [c' [err|]]; [done|].
  apply IH.
Qed.

(** X11.  An outcome of the harness read backwards: an error handed back is
    the error of a validator of the list, the first to fail after all its
    predecessors passed, and the builder is as that validator left it;
    success means every validator of the list was called and passed. *)
Theorem runValidationFunctions_outcome (cbCtx : context) (c c' : builder)
    (fns : list valFunc) outcome :
  appgw.runValidationFunctions c cbCtx fns = (c', outcome) ->
  match outcome with
  | Some err =>
      exists pre fn post c1,
        fns = pre ++ fn :: post
        /\ appgw.passes cbCtx c pre c1
        /\ appgw.callValidator c1 cbCtx fn = (c', Some err)
  | None => appgw.passes cbCtx c fns c'
  end.
Proof.
  revert c. induction fns as [|fn fns IH]; intros c; simpl.
  - intros [= <- <-]. constructor.
  - destruct (appgw.callValidator c cbCtx fn) as [c1 [err|]] eqn:Hcall.
    + intros [= <- <-]. exists [], fn, fns, c. split; [done|].
      split; [constructor|done].
    + intros Hrun. specialize (IH _ Hrun). destruct outcome as [err|].
      * destruct IH as (pre & fn' & post & c2 & -> & Hpre & Hfail).
        exists (fn :: pre), fn', post, c2. split; [done|].
        split; [by econstructor|done].
      * by econstructor.
Qed.

End ValidationMore.

Lemma runValidationFunctions_outcome_witness :
  exists pre fn post c1,
    [fixtures.passing "a"; fixtures.failing "b" "bad service";
     fixtures.passing "c"] = pre ++ fn :: post
    /\ appgw.passes fixtures.cbCtx fixtures.builder pre c1
    /\ appgw.callValidator c1 fixtures.cbCtx fn
       = (appgw.set_recorder fixtures.builder ["a"; "b"], Some "bad service").
Proof.
  apply (runValidationFunctions_outcome fixtures.cbCtx fixtures.builder
           (appgw.set_recorder fixtures.builder ["a"; "b"])
           [fixtures.passing "a"; fixtures.failing "b" "bad service";
            fixtures.passing "c"] (Some "bad service")).
  reflexivity.
Defined.

(** ** More on Build *)

Section BuildMore.

Context {ApplicationGatewayPropertiesFormat EnvVariables Service
         EventRecorder : Type}.

Local Abbreviation builder :=
  (@appgw.appGwConfigBuilder ApplicationGatewayPropertiesFormat EventRecorder).
Local Abbreviation context :=
  (@appgw.ConfigBuilderContext EnvVariables Service).
Local Abbreviation stage :=
  (@appgw.stage ApplicationGatewayPropertiesFormat EnvVariables Service
     EventRecorder).

Variable HealthProbesCollection : stage.
Variable BackendHTTPSettingsCollection : stage.
Variable BackendAddressPools : stage.
Variable Listeners : stage.
Variable RequestRoutingRules : stage.
Variable managedByK8sIngress : string.
Variable Version GitCommit BuildDate : string.

Local Abbreviation Build :=
  (appgw.Build HealthProbesCollection BackendHTTPSettingsCollection
     BackendAddressPools Listeners RequestRoutingRules
     managedByK8sIngress Version GitCommit BuildDate).
Local Abbreviation addTags :=
  (appgw.addTags (ApplicationGatewayPropertiesFormat :=
                    ApplicationGatewayPropertiesFormat)
     (EventRecorder := EventRecorder)
     managedByK8sIngress Version GitCommit BuildDate).
Local Abbreviation tagValue :=
  (String.append Version
     (String.append "/" (String.append GitCommit
        (String.append "/" BuildDate)))).

(** X12.  When the five stages pass, each on the builder its predecessor
    left, [Build] hands back no error and the gateway of the builder after
    the last stage with the management tag added: its properties are those
    the last stage left, and its tag map holds the version, commit and build
    date under the management key. *)
Theorem Build_success (c c1 c2 c3 c4 c5 : builder) (cbCtx : context) :
  HealthProbesCollection cbCtx c = (c1, None) ->
  BackendHTTPSettingsCollection cbCtx c1 = (c2, None) ->
  BackendAddressPools cbCtx c2 = (c3, None) ->
  Listeners cbCtx c3 = (c4, None) ->
  RequestRoutingRules cbCtx c4 = (c5, None) ->
  exists gw tags,
    Build c cbCtx = (addTags c5, (Some gw, None))
    /\ gw = appgw.appGw (addTags c5)
    /\ appgw.Properties gw = appgw.Properties (appgw.appGw c5)
    /\ appgw.Tags gw = Some tags
    /\ tags !! managedByK8sIngress = Some (Some tagValue).
Proof.
  intros H1 H2 H3 H4 H5. unfold appgw.Build.
  rewrite H1, H2, H3, H4, H5.
  eexists _, _. split; [reflexivity|]. split; [reflexivity|].
  unfold appgw.addTags. cbn [appgw.set_appGw appgw.appGw appgw.Properties appgw.Tags].
  split; [done|]. split; [reflexivity|].
  by rewrite lookup_insert_eq.
Qed.

(** X13.  [addTags] touches the tag map of the gateway and nothing else,
    overwrites nothing but the management key, and doing it twice is doing
    it once. *)
Theorem addTags_only_tags (c : builder) :
  appgw.k8sContext (addTags c) = appgw.k8sContext c
  /\ appgw.recorder (addTags c) = appgw.recorder c
  /\ appgw.Properties (appgw.appGw (addTags c))
     = appgw.Properties (appgw.appGw c)
  /\ (forall key,
        key <> managedByK8sIngress ->
        (default ∅ (appgw.Tags (appgw.appGw (addTags c)))) !! key
        = (default ∅ (appgw.Tags (appgw.appGw c))) !! key)
  /\ addTags (addTags c) = addTags c.
Proof.
  unfold appgw.addTags, appgw.set_appGw. simpl.
  split; [done|]. split; [done|]. split; [done|]. split.
  - intros key Hne. rewrite lookup_insert_ne by done.
    by destruct (appgw.Tags (appgw.appGw c)).
  - by rewrite insert_insert_eq.
Qed.

End BuildMore.

(** X14.  [Build] hands back a gateway or an error, never both and never
    neither: an error comes without gateway and is one of the five stage
    messages; a gateway comes without error, is the gateway of the builder
    [Build] leaves, and is handed back only when the five stages passed in
    turn and the tag was added. *)
Theorem Build_gateway_or_error
    {ApplicationGatewayPropertiesFormat EnvVariables Service EventRecorder}
    (HealthProbesCollection BackendHTTPSettingsCollection BackendAddressPools
       Listeners RequestRoutingRules :
       @appgw.stage ApplicationGatewayPropertiesFormat EnvVariables Service
         EventRecorder)
    (managedByK8sIngress Version GitCommit BuildDate : string)
    c c' cbCtx gw err :
  appgw.Build HealthProbesCollection BackendHTTPSettingsCollection
    BackendAddressPools Listeners RequestRoutingRules
    managedByK8sIngress Version GitCommit BuildDate c cbCtx
  = (c', (gw, err)) ->
  (gw = None
   /\ exists msg, err = Some msg
        /\ msg ∈ [ "unable to generate health probes";
                   "unable to generate backend http settings";
                   "unable to generate backend address pools";
                   "unable to generate frontend listeners";
                   "unable to generate request routing rules" ])
  \/ (err = None /\ gw = Some (appgw.appGw c')
      /\ exists c1 c2 c3 c4 c5,
           HealthProbesCollection cbCtx c = (c1, None)
           /\ BackendHTTPSettingsCollection cbCtx c1 = (c2, None)
           /\ BackendAddressPools cbCtx c2 = (c3, None)
           /\ Listeners cbCtx c3 = (c4, None)
           /\ RequestRoutingRules cbCtx c4 = (c5, None)
           /\ c' = appgw.addTags managedByK8sIngress Version GitCommit
                     BuildDate c5).
Proof.
  unfold appgw.Build.
  destruct (HealthProbesCollection cbCtx c) as [c1 [e|]]; simpl.
  { intros [= <- <- <-]. left. split; [done|]. eexists. split; [done|].
    set_solver. }
  destruct (BackendHTTPSettingsCollection cbCtx c1) as [c2 [e|]] eqn:H2; simpl.
  { intros [= <- <- <-]. left. split; [done|]. eexists. split; [done|].
    set_solver. }
  destruct (BackendAddressPools cbCtx c2) as [c3 [e|]] eqn:H3; simpl.
  { intros [= <- <- <-]. left. split; [done|]. eexists. split; [done|].
    set_solver. }
  destruct (Listeners cbCtx c3) as [c4 [e|]] eqn:H4; simpl.
  { intros [= <- <- <-]. left. split; [done|]. eexists. split; [done|].
    set_solver. }
  destruct (RequestRoutingRules cbCtx c4) as [c5 [e|]] eqn:H5; simpl.
  { intros [= <- <- <-]. left. split; [done|]. eexists. split; [done|].
    set_solver. }
  intros [= <- <- <-]. right. split; [done|]. split; [done|].
  by exists c1, c2, c3, c4, c5.
Qed.

Lemma Build_success_witness :
  exists gw tags,
    appgw.Build (fixtures.stageOk "probes") (fixtures.stageOk "settings")
      (fixtures.stageOk "pools") (fixtures.stageOk "listeners")
      (fixtures.stageOk "rules") "managed-by-k8s-ingress" "1.0" "abc" "today"
      fixtures.builder fixtures.cbCtx
    = (appgw.addTags "managed-by-k8s-ingress" "1.0" "abc" "today"
         (appgw.set_recorder fixtures.builder
            ["probes"; "settings"; "pools"; "listeners"; "rules"]),
       (Some gw, None))
    /\ gw = appgw.appGw
              (appgw.addTags "managed-by-k8s-ingress" "1.0" "abc" "today"
                 (appgw.set_recorder fixtures.builder
                    ["probes"; "settings"; "pools"; "listeners"; "rules"]))
    /\ appgw.Properties gw
       = appgw.Properties
           (appgw.appGw
              (appgw.set_recorder fixtures.builder
                 ["probes"; "settings"; "pools"; "listeners"; "rules"]))
    /\ appgw.Tags gw = Some tags
    /\ tags !! "managed-by-k8s-ingress" = Some (Some "1.0/abc/today").
Proof.
  apply (Build_success
           (fixtures.stageOk "probes") (fixtures.stageOk "settings")
           (fixtures.stageOk "pools") (fixtures.stageOk "listeners")
           (fixtures.stageOk "rules") "managed-by-k8s-ingress" "1.0" "abc"
           "today" fixtures.builder
           (appgw.set_recorder fixtures.builder ["probes"])
           (appgw.set_recorder fixtures.builder ["probes"; "settings"])
           (appgw.set_recorder fixtures.builder ["probes"; "settings"; "pools"])
           (appgw.set_recorder fixtures.builder
              ["probes"; "settings"; "pools"; "listeners"])
           (appgw.set_recorder fixtures.builder
              ["probes"; "settings"; "pools"; "listeners"; "rules"])
           fixtures.cbCtx); reflexivity.
Defined.

Lemma Build_gateway_or_error_witness :
  ((None : option (@appgw.ApplicationGateway unit)) = None
   /\ exists msg, Some "unable to generate backend address pools" = Some msg
        /\ msg ∈ [ "unable to generate health probes";
                   "unable to generate backend http settings";
                   "unable to generate backend address pools";
                   "unable to generate frontend listeners";
                   "unable to generate request routing rules" ])
  \/ (Some "unable to generate backend address pools" = None
      /\ None = Some (appgw.appGw
                        (appgw.set_recorder fixtures.builder
                           ["probes"; "settings"; "pools"]))
      /\ exists c1 c2 c3 c4 c5,
           fixtures.stageOk "probes" fixtures.cbCtx fixtures.builder = (c1, None)
           /\ fixtures.stageOk "settings" fixtures.cbCtx c1 = (c2, None)
           /\ fixtures.stageFails "pools" "no endpoints" fixtures.cbCtx c2
              = (c3, None)
           /\ fixtures.stageOk "listeners" fixtures.cbCtx c3 = (c4, None)
           /\ fixtures.stageOk "rules" fixtures.cbCtx c4 = (c5, None)
           /\ appgw.set_recorder fixtures.builder ["probes"; "settings"; "pools"]
              = appgw.addTags "managed-by-k8s-ingress" "1.0" "abc" "today" c5).
Proof.
  apply (Build_gateway_or_error
           (fixtures.stageOk "probes") (fixtures.stageOk "settings")
           (fixtures.stageFails "pools" "no endpoints")
           (fixtures.stageOk "listeners") (fixtures.stageOk "rules")
           "managed-by-k8s-ingress" "1.0" "abc" "today"
           fixtures.builder
           (appgw.set_recorder fixtures.builder ["probes"; "settings"; "pools"])
           fixtures.cbCtx None (Some "unable to generate backend address pools")).
  reflexivity.
Defined.

(** ** The builder and the original gateway *)

Section TagMapFacts.

Context {ApplicationGatewayPropertiesFormat Identifier EventRecorder : Type}.

Variable managedByK8sIngress : string.
Variable Version GitCommit BuildDate : string.

Local Abbreviation gateway :=
  (@appgwmem.ApplicationGateway ApplicationGatewayPropertiesFormat).
Local Abbreviation builder :=
  (@appgwmem.appGwConfigBuilder ApplicationGatewayPropertiesFormat Identifier
     EventRecorder).
Local Abbreviation addTags :=
  (appgwmem.addTags (ApplicationGatewayPropertiesFormat :=
                       ApplicationGatewayPropertiesFormat)
     (Identifier := Identifier) (EventRecorder := EventRecorder)
     managedByK8sIngress Version GitCommit BuildDate).
Local Abbreviation tagValue :=
  (appgwmem.tagValue Version GitCommit BuildDate).

(** X15.  With the tag map in a heap, [addTags] returns on every builder
    whose gateway has a nil tag map or points to a map of the heap, and
    the builder it leaves reads back as what [appgw.addTags] computes on
    values; a nil map is replaced by a new one and no map of the heap is
    touched, a map that is there is written in place. *)
Theorem addTags_refines (c : builder) (h : appgwmem.heap) cv :
  appgwmem.readBuilder h c = Some cv ->
  exists c' h',
    addTags c h = Some (c', h')
    /\ appgwmem.readBuilder h' c'
       = Some (appgw.addTags managedByK8sIngress Version GitCommit BuildDate cv)
    /\ appgwmem.appGwIdentifier c' = appgwmem.appGwIdentifier c
    /\ match appgwmem.Tags (appgwmem.appGw c) with
       | None =>
           h ⊆ h'
           /\ exists l, appgwmem.Tags (appgwmem.appGw c') = Some l
                        /\ h !! l = None
       | Some l =>
           appgwmem.Tags (appgwmem.appGw c') = Some l
           /\ forall l', l' <> l -> h' !! l' = h !! l'
       end.
Proof.
  unfold appgwmem.readBuilder, appgwmem.readGateway, appgwmem.addTags.
  destruct c as [ctx id [props [l|]] rec]; simpl.
  - destruct (h !! l) as [tags|] eqn:Hl; [|done].
    intros [= <-]. eexists _, _. split; [reflexivity|]. simpl.
    rewrite lookup_insert_eq. split; [done|]. split; [done|]. split; [done|].
    intros l' Hne. by rewrite lookup_insert_ne.
  - intros [= <-]. rewrite lookup_insert_eq.
    eexists _, _. split; [reflexivity|]. simpl.
    rewrite lookup_insert_eq, insert_insert_eq. split; [done|].
    split; [done|].
    assert (h !! fresh (dom h) = None) as Hfresh
      by apply not_elem_of_dom, is_fresh.
    split; [by apply insert_subseteq|]. by eexists.
Qed.

(** X16.  [addTags] reaches the gateway the builder was made from: when the
    original gateway has a tag map, the builder [NewConfigBuilder] makes
    from it shares that map, and after [addTags] the original, read through
    its own pointer, carries the management tag as well; when the original
    has no tag map, it has none afterwards either. *)
Theorem addTags_reaches_original context (id : Identifier)
    (original : gateway) (rec : EventRecorder) (h : appgwmem.heap) gw :
  appgwmem.readGateway h original = Some gw ->
  exists c' h',
    addTags (appgwmem.NewConfigBuilder context id original rec) h
    = Some (c', h')
    /\ appgwmem.readGateway h' original
       = Some {| appgw.Properties := appgw.Properties gw;
                 appgw.Tags :=
                   match appgw.Tags gw with
                   | None => None
                   | Some tags =>
                       Some (<[managedByK8sIngress := Some tagValue]> tags)
                   end |}.
Proof.
  unfold appgwmem.readGateway, appgwmem.addTags, appgwmem.NewConfigBuilder.
  destruct original as [props [l|]]; simpl.
  - destruct (h !! l) as [tags|] eqn:Hl; [|done].
    intros [= <-]. eexists _, _. split; [reflexivity|]. simpl.
    by rewrite lookup_insert_eq.
  - intros [= <-]. rewrite lookup_insert_eq.
    eexists _, _. split; [reflexivity|]. done.
Qed.

End TagMapFacts.

Lemma addTags_refines_witness :
  exists c' h',
    appgwmem.addTags "managed-by-k8s-ingress" "1.0" "abc" "today"
      (appgwmem.NewConfigBuilder fixtures.k8sContext tt fixtures.untagged
         ([] : list string)) fixtures.tagHeap = Some (c', h')
    /\ appgwmem.readBuilder h' c'
       = Some (appgw.addTags "managed-by-k8s-ingress" "1.0" "abc" "today"
                 fixtures.builder)
    /\ appgwmem.appGwIdentifier c' = tt
    /\ fixtures.tagHeap ⊆ h'
       /\ exists l, appgwmem.Tags (appgwmem.appGw c') = Some l
                    /\ fixtures.tagHeap !! l = None.
Proof.
  apply (addTags_refines "managed-by-k8s-ingress" "1.0" "abc" "today"
           (appgwmem.NewConfigBuilder fixtures.k8sContext tt fixtures.untagged
              ([] : list string)) fixtures.tagHeap fixtures.builder).
  reflexivity.
Defined.

Lemma addTags_reaches_original_witness :
  exists c' h',
    appgwmem.addTags "managed-by-k8s-ingress" "1.0" "abc" "today"
      (appgwmem.NewConfigBuilder fixtures.k8sContext tt fixtures.original
         ([] : list string)) fixtures.tagHeap = Some (c', h')
    /\ appgwmem.readGateway h' fixtures.original
       = Some {| appgw.Properties := None;
                 appgw.Tags :=
                   Some (<["managed-by-k8s-ingress" := Some "1.0/abc/today"]>
                           {[ "owner" := Some "ops" ]}) |}.
Proof.
  apply (addTags_reaches_original "managed-by-k8s-ingress" "1.0" "abc" "today"
           fixtures.k8sContext tt fixtures.original ([] : list string)
           fixtures.tagHeap
           {| appgw.Properties := None;
              appgw.Tags := Some {[ "owner" := Some "ops" ]} |}).
  reflexivity.
Defined.
